(** * DyldExtractor: the command-line front end ([extractor.py])

    A shallow embedding of [extractor.py]: argument handling, image
    selection ([_filterImages]), the conversion pipeline driver
    ([_extractImage]) and [main].

    What [extractor.py] imports from the [DyldExtractor] package (the
    dyld and Mach-O contexts and the five converters) is not part of this
    file; it is taken as a parameter ([Package]) whose members are
    arbitrary programs over the objects an [ExtractionContext] gives them
    access to.  Python built-ins that depend on Unicode tables
    ([str.lower], [str.strip], [bytes.decode]) are parameters as well
    ([PyBuiltins]); an ASCII instance is given for the examples. *)

From Stdlib Require Import NArith ZArith String Ascii.
From Stdlib Require Import Strings.Byte.
From stdpp Require Import gmap strings list fin_maps.

Set Default Proof Using "Type".

(** ** Exceptions and results *)

Inductive exn : Type :=
| KeyError
| TypeError
| ValueError
| OverflowError
| FileNotFoundError
| IsADirectoryError
| NotADirectoryError
| FileExistsError
| UnicodeDecodeError
| Raised (name : string).

Inductive result (A : Type) : Type :=
| Ok (a : A)
| Err (e : exn).
Arguments Ok {A} a.
Arguments Err {A} e.

Definition is_ok {A} (r : result A) : bool :=
  match r with Ok _ => true | Err _ => false end.

(** Python [bytes]. *)
Abbreviation bytes := (list byte).

(** ** Strings *)

(** [sub in s] on [str]. *)
Fixpoint str_contains (sub s : string) : bool :=
  String.prefix sub s ||
  match s with
  | EmptyString => false
  | String _ s' => str_contains sub s'
  end.

(** Truth value of an optional string argument ([if args.extract:]):
    [None] and the empty string are false. *)
Definition truthy (o : option string) : bool :=
  match o with
  | Some s => negb (String.eqb s "")
  | None => false
  end.

(** Built-ins of [str] and [bytes] whose result depends on Unicode
    tables. *)
Record PyBuiltins : Type := {
  lower : string → string;
  strip : string → string;
  decode_utf8 : bytes → result string
}.

(** ** Paths and the file system *)

(** A path as the sequence of its parts, as [pathlib.PurePosixPath.parts]
    gives them: an absolute path starts with the part ["/"]; empty parts
    and ["."] parts are dropped.  [".."] is kept as a part, as pathlib
    does. *)
Abbreviation fspath := (list string).

Fixpoint split_on (sep : ascii) (s : string) : list string :=
  match s with
  | EmptyString => [EmptyString]
  | String c s' =>
      if Ascii.eqb c sep then EmptyString :: split_on sep s'
      else match split_on sep s' with
           | [] => [String c EmptyString]
           | x :: xs => String c x :: xs
           end
  end.

Definition keep_part (c : string) : bool :=
  negb (String.eqb c "") && negb (String.eqb c ".").

(** [pathlib.Path(s)] *)
Definition Path (s : string) : fspath :=
  (if String.prefix "/" s then ["/"%string] else []) ++
  List.filter keep_part (split_on "/"%char s).

(** [p.parent] *)
Definition parent (p : fspath) : fspath :=
  match p with
  | [r] => if String.eqb r "/" then p else []
  | _ => removelast p
  end.

(** What [open] and [os.makedirs] are given: a [str] or a [Path]. *)
Inductive pathlike : Type :=
| PStr (s : string)
| PPath (p : fspath).

Definition fspath_of (pl : pathlike) : fspath :=
  match pl with
  | PStr s => Path s
  | PPath p => p
  end.

(** The file system: the directories that exist and the regular files
    with their contents, both keyed by path parts relative to the working
    directory.  The working directory [[]] and the root always exist.
    Symbolic links, permissions and the resolution of [".."] are not
    modelled. *)
Record FS : Type := {
  dirs : gset (list string);
  files : gmap (list string) bytes
}.

Definition is_dir (fs : FS) (p : fspath) : bool :=
  bool_decide (p = [] ∨ p = ["/"%string] ∨ p ∈ dirs fs).

Definition is_file (fs : FS) (p : fspath) : bool :=
  bool_decide (is_Some (files fs !! p)).

(** [open(p, "rb")] followed by reading the whole file. *)
Definition fs_open_rb (p : fspath) (fs : FS) : result bytes :=
  if is_dir fs p then Err IsADirectoryError
  else match files fs !! p with
       | Some content => Ok content
       | None => Err FileNotFoundError
       end.

(** [open(p, "wb")]: creates the file or truncates it. *)
Definition fs_open_wb (p : fspath) (fs : FS) : result FS :=
  if is_dir fs p then Err IsADirectoryError
  else if is_dir fs (parent p) then
    Ok {| dirs := dirs fs; files := <[p := []]> (files fs) |}
  else if is_file fs (parent p) then Err NotADirectoryError
  else Err FileNotFoundError.

(** [outFile.write(payload)] on a file just opened with ["wb"]. *)
Definition fs_write (p : fspath) (payload : bytes) (fs : FS) : FS :=
  {| dirs := dirs fs; files := <[p := payload]> (files fs) |}.

(** [os.makedirs(p, exist_ok=True)]: creates every missing directory on
    the way to [p], [p] included. *)
Fixpoint makedirs_from (pre : fspath) (rest : list string) (fs : FS)
  : result FS :=
  match rest with
  | [] => Ok fs
  | c :: rest' =>
      let d := pre ++ [c] in
      if is_file fs d then
        Err (match rest' with [] => FileExistsError | _ => NotADirectoryError end)
      else
        makedirs_from d rest'
          {| dirs := if is_dir fs d then dirs fs else {[d]} ∪ dirs fs;
             files := files fs |}
  end.

Definition fs_makedirs (p : fspath) (fs : FS) : result FS :=
  makedirs_from [] p fs.

(** [open(outputPath, "wb")] on a path-like object; the empty string
    names no file. *)
Definition try_open_wb (outputPath : pathlike) (fs : FS) : result FS :=
  match outputPath with
  | PStr EmptyString => Err FileNotFoundError
  | _ => fs_open_wb (fspath_of outputPath) fs
  end.

(** ** Memory maps *)

(** The two access modes [extractor.py] uses. *)
Inductive access_mode : Type :=
| ACCESS_READ
| ACCESS_COPY.

(** An [mmap.mmap] object over a whole file (length [0]).  With
    [ACCESS_COPY] the data are private to the mapping: writes never reach
    the file. *)
Record mmap_obj : Type := {
  access : access_mode;
  data : bytes
}.

(** [mmap.mmap(fileno, 0, access=acc)]: an empty file cannot be mapped. *)
Definition mmap_new (content : bytes) (acc : access_mode) : result mmap_obj :=
  match content with
  | [] => Err ValueError
  | _ => Ok {| access := acc; data := content |}
  end.

(** Slice assignment [m[off:off+len(payload)] = payload]: refused on a
    read-only map; a map cannot change its length. *)
Definition mmap_write (off : nat) (payload : bytes) (m : mmap_obj)
  : result mmap_obj :=
  match access m with
  | ACCESS_READ => Err TypeError
  | ACCESS_COPY =>
      if bool_decide (off + length payload ≤ length (data m)) then
        Ok {| access := ACCESS_COPY;
              data := take off (data m) ++ payload ++
                      drop (off + length payload) (data m) |}
      else Err ValueError
  end.

(** [m.seek(0)] followed by [m.read(n)]: up to [n] bytes from the start;
    [n] has to fit a signed 64-bit size. *)
Definition mmap_read (n : N) (m : mmap_obj) : result bytes :=
  if (2 ^ 63 <=? n)%N then Err OverflowError
  else Ok (take (N.to_nat n) (data m)).

(** ** Structures of the DyldExtractor package used by [extractor.py] *)

(** [dyld_cache_image_info]: the fields [extractor.py] reads. *)
Record dyld_cache_image_info : Type := {
  address : N;
  pathFileOffset : N
}.

(** [segment_command_64]: the fields [extractor.py] reads. *)
Record segment_command_64 : Type := {
  fileoff : N;
  filesize : N
}.

(** [machoCtx.segments]: segment name to segment. *)
Abbreviation segdict := (gmap string segment_command_64).

(** ** Programs of the package

    Code of the package runs against the objects it is handed: the two
    memory maps (the cache through [dyldCtx.file], the image through
    [machoCtx.file]), the segment table of the [MachOContext], the status
    bar and the logger.  A program is a tree of such operations; what it
    computes in between is ordinary Rocq.  Operations that can fail hand
    the exception to the program, which may handle it or raise.  The
    package is given no access to the file system or to standard output. *)

Inductive map_id : Type :=
| DyldFile
| MachoFile.

Inductive Op : Type → Type :=
| MapRead (m : map_id) : Op (result bytes)
| MapWrite (m : map_id) (off : nat) (payload : bytes) : Op (result unit)
| GetSegments : Op segdict
| SetSegments (d : segdict) : Op unit
| StatusUpdate (unit_ status : option string) : Op unit
| LogRecord (msg : string) : Op unit.

Inductive Prog (A : Type) : Type :=
| Ret (a : A)
| Raise (e : exn)
| Vis (X : Type) (op : Op X) (k : X → Prog A).
Arguments Ret {A} a.
Arguments Raise {A} e.
Arguments Vis {A X} op k.

(** The converter modules, in the order [_extractImage] calls them. *)
Inductive Stage : Type :=
| SlideInfo
| LinkeditOptimizer
| StubFixer
| ObjcFixer
| MachoOffset.

(** What [extractor.py] imports from the package. *)
Record Package : Type := {
  DyldContext : Type;
  DyldContext_init : Prog DyldContext;
  images : DyldContext → list dyld_cache_image_info;
  readString : DyldContext → N → Prog bytes;
  convertAddr : DyldContext → N → Prog N;
  MachOContext_init : N → Prog segdict;
  ExtractionContext_init : Prog unit;
  processSlideInfo : Prog unit;
  optimizeLinkedit : Prog unit;
  fixStubs : Prog unit;
  fixObjC : Prog unit;
  optimizeOffsets : Prog unit
}.

Definition stage_body (pkg : Package) (s : Stage) : Prog unit :=
  match s with
  | SlideInfo => processSlideInfo pkg
  | LinkeditOptimizer => optimizeLinkedit pkg
  | StubFixer => fixStubs pkg
  | ObjcFixer => fixObjC pkg
  | MachoOffset => optimizeOffsets pkg
  end.

(** The status bar as the package sees it: an object that accepts
    updates of its [unit] and [status] variables. *)
Record Reporter : Type := {
  rstate : Type;
  rinit : rstate;
  rupdate : option string → option string → rstate → rstate
}.

(** ** The world *)

(** What a run can be observed to do, in order: what [main] prints, the
    directories and files it asks for, and each converter it calls
    (recorded at the call, lines 101-106). *)
Inductive Event : Type :=
| EvPrint (line : string)
| EvMakedirs (p : fspath)
| EvOpen (p : pathlike)
| EvWrite (p : pathlike) (payload : bytes)
| EvStage (s : Stage).

Record World (rp : Reporter) : Type := {
  fs : FS;
  trace : list Event;
  dyldFile : option mmap_obj;
  machoFile : option mmap_obj;
  segments : segdict;
  statusBar : rstate rp;
  logger : list string
}.
Arguments fs {rp} w.
Arguments trace {rp} w.
Arguments dyldFile {rp} w.
Arguments machoFile {rp} w.
Arguments segments {rp} w.
Arguments statusBar {rp} w.
Arguments logger {rp} w.

Section Run.
Context {rp : Reporter}.

Definition set_fs (x : FS) (w : World rp) : World rp :=
  {| fs := x; trace := trace w; dyldFile := dyldFile w;
     machoFile := machoFile w; segments := segments w;
     statusBar := statusBar w; logger := logger w |}.

Definition emit (e : Event) (w : World rp) : World rp :=
  {| fs := fs w; trace := trace w ++ [e]; dyldFile := dyldFile w;
     machoFile := machoFile w; segments := segments w;
     statusBar := statusBar w; logger := logger w |}.

Definition set_dyldFile (x : option mmap_obj) (w : World rp) : World rp :=
  {| fs := fs w; trace := trace w; dyldFile := x;
     machoFile := machoFile w; segments := segments w;
     statusBar := statusBar w; logger := logger w |}.

Definition set_machoFile (x : option mmap_obj) (w : World rp) : World rp :=
  {| fs := fs w; trace := trace w; dyldFile := dyldFile w;
     machoFile := x; segments := segments w;
     statusBar := statusBar w; logger := logger w |}.

Definition set_segments (x : segdict) (w : World rp) : World rp :=
  {| fs := fs w; trace := trace w; dyldFile := dyldFile w;
     machoFile := machoFile w; segments := x;
     statusBar := statusBar w; logger := logger w |}.

Definition set_statusBar (x : rstate rp) (w : World rp) : World rp :=
  {| fs := fs w; trace := trace w; dyldFile := dyldFile w;
     machoFile := machoFile w; segments := segments w;
     statusBar := x; logger := logger w |}.

Definition set_logger (x : list string) (w : World rp) : World rp :=
  {| fs := fs w; trace := trace w; dyldFile := dyldFile w;
     machoFile := machoFile w; segments := segments w;
     statusBar := statusBar w; logger := x |}.

Definition get_map (m : map_id) (w : World rp) : option mmap_obj :=
  match m with
  | DyldFile => dyldFile w
  | MachoFile => machoFile w
  end.

Definition set_map (m : map_id) (x : option mmap_obj) (w : World rp)
  : World rp :=
  match m with
  | DyldFile => set_dyldFile x w
  | MachoFile => set_machoFile x w
  end.

(** One operation of a program against the world.  A map that does not
    exist (yet, or any more) answers [ValueError]. *)
Definition handle {X} (op : Op X) (w : World rp) : X * World rp :=
  match op in Op X return X * World rp with
  | MapRead m =>
      (match get_map m w with
       | Some mo => Ok (data mo)
       | None => Err ValueError
       end, w)
  | MapWrite m off payload =>
      match get_map m w with
      | Some mo =>
          match mmap_write off payload mo with
          | Ok mo' => (Ok tt, set_map m (Some mo') w)
          | Err e => (Err e, w)
          end
      | None => (Err ValueError, w)
      end
  | GetSegments => (segments w, w)
  | SetSegments d => (tt, set_segments d w)
  | StatusUpdate u s => (tt, set_statusBar (rupdate rp u s (statusBar w)) w)
  | LogRecord msg => (tt, set_logger (logger w ++ [msg]) w)
  end.

Fixpoint run_prog {A} (p : Prog A) (w : World rp) : result A * World rp :=
  match p with
  | Ret a => (Ok a, w)
  | Raise e => (Err e, w)
  | Vis op k => let '(x, w') := handle op w in run_prog (k x) w'
  end.

(** ** The monad [extractor.py] itself runs in: state and exceptions *)

Definition M (A : Type) : Type := World rp → result A * World rp.

Definition ret {A} (a : A) : M A := λ w, (Ok a, w).
Definition raise {A} (e : exn) : M A := λ w, (Err e, w).
Definition bind {A B} (m : M A) (k : A → M B) : M B :=
  λ w, match m w with
       | (Ok a, w') => k a w'
       | (Err e, w') => (Err e, w')
       end.

(** [try: body finally: fin] *)
Definition finally {A} (body : M A) (fin : World rp → World rp) : M A :=
  λ w, let '(r, w') := body w in (r, fin w').

Definition lift {A} (r : result A) : M A := λ w, (r, w).
Definition modify (f : World rp → World rp) : M unit := λ w, (Ok tt, f w).
Definition gets {A} (f : World rp → A) : M A := λ w, (Ok (f w), w).

End Run.

Notation "x <-- m ;; k" := (bind m (λ x, k))
  (at level 100, m at next level, right associativity,
   format "'[v' x  <--  m  ;;  '/' k ']'").
Notation "m ;;; k" := (bind m (λ _, k))
  (at level 100, right associativity,
   format "'[v' m  ;;;  '/' k ']'").

(** ** [extractor.py] *)

(** The namespace [getArguments] returns.  [dyld_path] is converted by
    argparse with [pathlib.Path]; the options without a default are
    [None] when absent. *)
Record Namespace : Type := {
  dyld_path : string;
  extract : option string;
  output : option string;
  list_frameworks : bool;
  filter_ : option string;
  verbosity : Z
}.

(** The log level [main] configures (lines 139-147); [logging.WARNING],
    [logging.INFO] and [logging.DEBUG] are 30, 20 and 10. *)
Definition logging_level (args : Namespace) : Z :=
  if (verbosity args =? 0)%Z then 100%Z
  else if (verbosity args =? 2)%Z then 20%Z
  else if (verbosity args =? 3)%Z then 10%Z
  else 30%Z.

(** [imageMap]: a [dict], which keeps its keys in the order of their
    first insertion and the value of their last. *)
Abbreviation imagedict := (list (string * dyld_cache_image_info)).

Fixpoint dict_set (k : string) (v : dyld_cache_image_info) (d : imagedict)
  : imagedict :=
  match d with
  | [] => [(k, v)]
  | (k', v') :: d' =>
      if String.eqb k k' then (k, v) :: d' else (k', v') :: dict_set k v d'
  end.

Fixpoint dict_get (k : string) (d : imagedict) : option dyld_cache_image_info :=
  match d with
  | [] => None
  | (k', v') :: d' => if String.eqb k k' then Some v' else dict_get k d'
  end.

Definition dict_keys (d : imagedict) : list string := d.*1.

Definition dquote : string := String "034"%char EmptyString.
Definition newline : string := String "010"%char EmptyString.

(** The texts [main] prints. *)
Definition listing_header : string :=
  "Listing Images" +:+ newline +:+ "--------------".

Definition not_found_message (extractionTarget : string) : string :=
  "Unable to find image " +:+ dquote +:+ extractionTarget +:+ dquote.

Definition extracting_message (path : string) : string :=
  "Extracting " +:+ path.

Section Extractor.
Context {rp : Reporter} (py : PyBuiltins) (pkg : Package).

Definition print (line : string) : M (rp := rp) unit :=
  modify (emit (EvPrint line)).

(** [statusBar.update(unit=u, status=s)] *)
Definition statusBar_update (u s : string) : M (rp := rp) unit :=
  modify (λ w, set_statusBar (rupdate rp (Some u) (Some s) (statusBar w)) w).

(** [os.makedirs(p, exist_ok=True)] *)
Definition os_makedirs (p : fspath) : M (rp := rp) unit :=
  modify (emit (EvMakedirs p)) ;;;
  fs0 <-- gets fs ;;
  fs1 <-- lift (fs_makedirs p fs0) ;;
  modify (set_fs fs1).

(** [open(outputPath, "wb")] *)
Definition open_wb (outputPath : pathlike) : M (rp := rp) unit :=
  modify (emit (EvOpen outputPath)) ;;;
  fs0 <-- gets fs ;;
  fs1 <-- lift (try_open_wb outputPath fs0) ;;
  modify (set_fs fs1).

(** [outFile.write(payload)] *)
Definition outFile_write (outputPath : pathlike) (payload : bytes)
  : M (rp := rp) unit :=
  modify (emit (EvWrite outputPath payload)) ;;;
  modify (λ w, set_fs (fs_write (fspath_of outputPath) payload (fs w)) w).

(** A call of one converter (lines 101-106). *)
Definition call_stage (s : Stage) : M (rp := rp) unit :=
  modify (emit (EvStage s)) ;;;
  run_prog (stage_body pkg s).

(** Lines 101-106. *)
Definition run_pipeline : M (rp := rp) unit :=
  call_stage SlideInfo ;;;
  call_stage LinkeditOptimizer ;;;
  call_stage StubFixer ;;;
  call_stage ObjcFixer ;;;
  call_stage MachoOffset.

(** Lines 114-119: the bytes handed to [outFile.write]. *)
Definition output_buffer : M (rp := rp) bytes :=
  segs <-- gets segments ;;
  linkEditSeg <-- lift (match segs !! "__LINKEDIT"%string with
                       | Some seg => Ok seg
                       | None => Err KeyError
                       end) ;;
  let fileSize := (fileoff linkEditSeg + filesize linkEditSeg)%N in
  file <-- gets machoFile ;;
  lift (match file with
        | Some m => mmap_read fileSize m
        | None => Err ValueError
        end).

(** Lines 108-119. *)
Definition write_macho (outputPath : pathlike) : M (rp := rp) unit :=
  open_wb outputPath ;;;
  statusBar_update "Extractor" "Writing file" ;;;
  payload <-- output_buffer ;;
  outFile_write outputPath payload.

(** Lines 88-99: the writable copy, the [MachOContext], the status bar
    and the [ExtractionContext]. *)
Definition make_context (f : bytes) (dyldCtx : DyldContext pkg)
    (image : dyld_cache_image_info) : M (rp := rp) unit :=
  machoFile0 <-- lift (mmap_new f ACCESS_COPY) ;;
  modify (set_machoFile (Some machoFile0)) ;;;
  off <-- run_prog (convertAddr pkg dyldCtx (address image)) ;;
  segs <-- run_prog (MachOContext_init pkg off) ;;
  modify (set_segments segs) ;;;
  modify (set_statusBar (rinit rp)) ;;;
  run_prog (ExtractionContext_init pkg).

Definition _extractImage (f : bytes) (dyldCtx : DyldContext pkg)
    (image : dyld_cache_image_info) (outputPath : pathlike)
  : M (rp := rp) unit :=
  make_context f dyldCtx image ;;;
  run_pipeline ;;;
  write_macho outputPath ;;;
  statusBar_update "Extractor" "Done".

Definition _filterImages (imagePaths : list string) (filterTerm : string)
  : list string :=
  let filterTerm := lower py filterTerm in
  fold_left
    (λ filteredPaths path,
       if str_contains filterTerm (lower py path)
       then filteredPaths ++ [path]
       else filteredPaths)
    imagePaths [].

(** Lines 163-169. *)
Fixpoint enumerate_images (dyldCtx : DyldContext pkg)
    (imgs : list dyld_cache_image_info) (imageMap : imagedict)
  : M (rp := rp) imagedict :=
  match imgs with
  | [] => ret imageMap
  | imageData :: imgs' =>
      raw <-- run_prog (readString pkg dyldCtx (pathFileOffset imageData)) ;;
      path <-- lift (decode_utf8 py (removelast raw)) ;;
      enumerate_images dyldCtx imgs' (dict_set path imageData imageMap)
  end.

Fixpoint print_all (lines : list string) : M (rp := rp) unit :=
  match lines with
  | [] => ret tt
  | l :: lines' => print l ;;; print_all lines'
  end.

(** Lines 172-184. *)
Definition listed_paths (args : Namespace) (imageMap : imagedict)
  : list string :=
  match filter_ args with
  | Some term =>
      if truthy (filter_ args)
      then _filterImages (dict_keys imageMap) (lower py (strip py term))
      else dict_keys imageMap
  | None => dict_keys imageMap
  end.

Definition list_images (args : Namespace) (imageMap : imagedict)
  : M (rp := rp) unit :=
  print listing_header ;;;
  print_all (listed_paths args imageMap).

(** Lines 194-197. *)
Definition default_path (extractionTarget : string) : fspath :=
  Path ("binaries/" +:+ extractionTarget).

Definition choose_outputPath (args : Namespace) (extractionTarget : string)
  : M (rp := rp) pathlike :=
  match output args with
  | Some o => ret (PStr o)
  | None =>
      os_makedirs (parent (default_path extractionTarget)) ;;;
      ret (PPath (default_path extractionTarget))
  end.

(** Lines 187-201, entered when [args.extract] is true. *)
Definition extract_image (args : Namespace) (target : string) (f : bytes)
    (dyldCtx : DyldContext pkg) (imageMap : imagedict) : M (rp := rp) unit :=
  let extractionTarget := strip py target in
  let targetPaths := _filterImages (dict_keys imageMap) extractionTarget in
  match targetPaths with
  | [] => print (not_found_message extractionTarget)
  | first :: _ =>
      outputPath <-- choose_outputPath args extractionTarget ;;
      print (extracting_message first) ;;;
      image <-- lift (match dict_get first imageMap with
                     | Some i => Ok i
                     | None => Err KeyError
                     end) ;;
      _extractImage f dyldCtx image outputPath
  end.

(** Lines 171-201. *)
Definition dispatch (args : Namespace) (f : bytes)
    (dyldCtx : DyldContext pkg) (imageMap : imagedict) : M (rp := rp) unit :=
  if list_frameworks args then list_images args imageMap
  else match extract args with
       | Some target =>
           if truthy (extract args)
           then extract_image args target f dyldCtx imageMap
           else ret tt
       | None => ret tt
       end.

(** Lines 160-169: the [DyldContext] and the map of paths to images. *)
Definition load_images : M (rp := rp) (DyldContext pkg * imagedict) :=
  dyldCtx <-- run_prog (DyldContext_init pkg) ;;
  imageMap <-- enumerate_images dyldCtx (images pkg dyldCtx) [] ;;
  ret (dyldCtx, imageMap).

(** Lines 160-201: the body of the inner [with]. *)
Definition main_body (args : Namespace) (f : bytes) : M (rp := rp) unit :=
  loaded <-- load_images ;;
  dispatch args f loaded.1 loaded.2.

(** Lines 158-201.  The logging set-up of lines 138-156 touches nothing
    that is modelled.  Leaving the inner [with] closes the map. *)
Definition main (args : Namespace) : M (rp := rp) unit :=
  fs0 <-- gets fs ;;
  f <-- lift (fs_open_rb (Path (dyld_path args)) fs0) ;;
  dyldFile0 <-- lift (mmap_new f ACCESS_READ) ;;
  modify (set_dyldFile (Some dyldFile0)) ;;;
  finally (main_body args f) (set_dyldFile None).

End Extractor.

(** * Vocabulary of the properties *)

(** A map is read-only when it is absent or mapped with [ACCESS_READ]. *)
Definition readonly (o : option mmap_obj) : Prop :=
  ∀ m, o = Some m → access m = ACCESS_READ.


(** What code of the package leaves as it found it. *)
Definition framed {rp} (w w' : World rp) : Prop :=
  fs w' = fs w ∧ trace w' = trace w ∧
  (readonly (dyldFile w) → dyldFile w' = dyldFile w).

(** The order of lines 101-106. *)
Definition pipeline_order : list Stage :=
  [SlideInfo; LinkeditOptimizer; StubFixer; ObjcFixer; MachoOffset].

(** What a complete run of [_extractImage] adds to the trace. *)
Definition full_run (outputPath : pathlike) (payload : bytes) : list Event :=
  (EvStage <$> pipeline_order) ++
  [EvOpen outputPath; EvWrite outputPath payload].



Section Vocabulary.
Context {rp : Reporter} (py : PyBuiltins) (pkg : Package).

Definition wp {A} (m : M A) (Q : result A → World rp → Prop) (w : World rp)
  : Prop :=
  Q (m w).1 (m w).2.

Fixpoint run_stages (l : list Stage) : M (rp := rp) unit :=
  match l with
  | [] => ret tt
  | s :: l' => call_stage pkg s ;;; run_stages l'
  end.

(** The destination [main] hands to [_extractImage]. *)
Definition destination (args : Namespace) (extractionTarget : string)
  : pathlike :=
  match output args with
  | Some o => PStr o
  | None => PPath (default_path extractionTarget)
  end.

(** What [main] runs once a first match is known (lines 194-201). *)
Definition extract_first (args : Namespace) (extractionTarget first : string)
    (f : bytes) (dyldCtx : DyldContext pkg) (imageMap : imagedict)
  : M (rp := rp) unit :=
  outputPath <-- choose_outputPath args extractionTarget ;;
  print (extracting_message first) ;;;
  image <-- lift (match dict_get first imageMap with
                 | Some i => Ok i
                 | None => Err KeyError
                 end) ;;
  _extractImage pkg f dyldCtx image outputPath.

(** How a call of [_extractImage] started in [w] can end. *)
Inductive extract_outcome (outputPath : pathlike) (w : World rp)
  : result unit → World rp → Prop :=
| Out_context e w' :
    fs w' = fs w → trace w' = trace w →
    extract_outcome outputPath w (Err e) w'
| Out_stage n e w' :
    0 < n ≤ 5 → fs w' = fs w →
    trace w' = trace w ++ (EvStage <$> take n pipeline_order) →
    extract_outcome outputPath w (Err e) w'
| Out_open e w' :
    try_open_wb outputPath (fs w) = Err e → fs w' = fs w →
    trace w' = trace w ++ (EvStage <$> pipeline_order) ++ [EvOpen outputPath] →
    extract_outcome outputPath w (Err e) w'
| Out_size fs1 e w' :
    try_open_wb outputPath (fs w) = Ok fs1 → fs w' = fs1 →
    trace w' = trace w ++ (EvStage <$> pipeline_order) ++ [EvOpen outputPath] →
    (output_buffer w').1 = Err e →
    extract_outcome outputPath w (Err e) w'
| Out_written fs1 seg m payload w' :
    try_open_wb outputPath (fs w) = Ok fs1 →
    fs w' = fs_write (fspath_of outputPath) payload fs1 →
    trace w' = trace w ++ full_run outputPath payload →
    segments w' !! "__LINKEDIT"%string = Some seg →
    machoFile w' = Some m →
    (fileoff seg + filesize seg < 2 ^ 63)%N →
    payload = take (N.to_nat (fileoff seg + filesize seg)) (data m) →
    extract_outcome outputPath w (Ok tt) w'.

(** How lines 194-201, started in [w] on a first match, can end. *)
Definition extract_first_post (args : Namespace)
    (extractionTarget first : string) (w : World rp)
    (r : result unit) (w' : World rp) : Prop :=
  let announced := emit (EvPrint (extracting_message first)) in
  match output args with
  | Some o => extract_outcome (PStr o) (announced w) r w'
  | None =>
      let d := parent (default_path extractionTarget) in
      match fs_makedirs d (fs w) with
      | Err e =>
          r = Err e ∧ fs w' = fs w ∧ trace w' = trace w ++ [EvMakedirs d]
      | Ok fs1 =>
          extract_outcome (PPath (default_path extractionTarget))
            (announced (set_fs fs1 (emit (EvMakedirs d) w))) r w'
      end
  end.

End Vocabulary.

(** * Instances for the examples *)

(** ** The built-ins on ASCII text *)

Definition ascii_lower_char (c : ascii) : ascii :=
  let n := nat_of_ascii c in
  if (65 <=? n) && (n <=? 90) then ascii_of_nat (n + 32) else c.

Fixpoint ascii_lower (s : string) : string :=
  match s with
  | EmptyString => EmptyString
  | String c s' => String (ascii_lower_char c) (ascii_lower s')
  end.

Definition is_space (c : ascii) : bool :=
  let n := nat_of_ascii c in
  ((9 <=? n) && (n <=? 13)) || ((28 <=? n) && (n <=? 32)).

Fixpoint lstrip (s : string) : string :=
  match s with
  | EmptyString => EmptyString
  | String c s' => if is_space c then lstrip s' else s
  end.

Fixpoint rstrip (s : string) : string :=
  match s with
  | EmptyString => EmptyString
  | String c s' =>
      match rstrip s' with
      | EmptyString => if is_space c then EmptyString else String c EmptyString
      | r => String c r
      end
  end.

Definition ascii_strip (s : string) : string := rstrip (lstrip s).

Definition ascii_decode (b : bytes) : result string :=
  if forallb (λ x, Byte.to_nat x <? 128) b
  then Ok (string_of_list_byte b)
  else Err UnicodeDecodeError.

Definition ascii_py : PyBuiltins :=
  {| lower := ascii_lower; strip := ascii_strip; decode_utf8 := ascii_decode |}.

(** ** Two status bars *)


Definition silent : Reporter :=
  {| rstate := unit; rinit := tt; rupdate := λ _ _ st, st |}.

(** ** A small package and a small cache *)

Definition demo_paths : list bytes :=
  [list_byte_of_string "UIKit.framework/UIKit" ++ [x00];
   list_byte_of_string "Foundation.framework/Foundation" ++ [x00]].

Definition or_raise (r : result unit) : Prog unit :=
  match r with
  | Ok _ => Ret tt
  | Err e => Raise e
  end.

(** Its second converter tries to write into the cache and goes on when
    that is refused. *)
Definition demo_pkg : Package :=
  {| DyldContext := unit;
     DyldContext_init := Ret tt;
     images := λ _, [ {| address := 0; pathFileOffset := 0 |};
                      {| address := 2; pathFileOffset := 1 |} ];
     readString := λ _ off, Ret (nth (N.to_nat off) demo_paths []);
     convertAddr := λ _ a, Ret a;
     MachOContext_init := λ _,
       Ret {[ "__LINKEDIT"%string := {| fileoff := 2; filesize := 2 |} ]};
     ExtractionContext_init := Ret tt;
     processSlideInfo :=
       Vis (StatusUpdate (Some "Slide Info") (Some "Rebasing"))
         (λ _, Vis (MapWrite MachoFile 0 [xff]) or_raise);
     optimizeLinkedit := Vis (MapWrite DyldFile 0 [x00]) (λ _, Ret tt);
     fixStubs := Vis (LogRecord "stubs") (λ _, Ret tt);
     fixObjC := Ret tt;
     optimizeOffsets :=
       Vis GetSegments
         (λ segs,
            Vis (SetSegments
                   (<["__LINKEDIT"%string := {| fileoff := 1; filesize := 2 |}]> segs))
              (λ _, Ret tt)) |}.



(** The same on an image with no [__LINKEDIT] segment. *)
Definition bare_pkg : Package :=
  {| DyldContext := DyldContext demo_pkg;
     DyldContext_init := DyldContext_init demo_pkg;
     images := images demo_pkg;
     readString := readString demo_pkg;
     convertAddr := convertAddr demo_pkg;
     MachOContext_init := λ _, Ret ∅;
     ExtractionContext_init := Ret tt;
     processSlideInfo := Ret tt;
     optimizeLinkedit := Ret tt;
     fixStubs := Ret tt;
     fixObjC := Ret tt;
     optimizeOffsets := Ret tt |}.

Definition demo_cache : bytes := [x01; x02; x03; x04].

Definition demo_fs : FS :=
  {| dirs := ∅; files := {[ ["cache"%string] := demo_cache ]} |}.

Definition demo_world (rp : Reporter) : World rp :=
  {| fs := demo_fs; trace := []; dyldFile := None; machoFile := None;
     segments := ∅; statusBar := rinit rp; logger := [] |}.

(** The world in which [main] calls [_extractImage]. *)
Definition demo_mapped (rp : Reporter) : World rp :=
  set_dyldFile (Some {| access := ACCESS_READ; data := demo_cache |})
    (demo_world rp).

Definition demo_image : dyld_cache_image_info :=
  {| address := 0; pathFileOffset := 0 |}.

(** One call of [_extractImage] on the small cache. *)
Definition demo_extract (rp : Reporter) (pkg : Package)
    (dyldCtx : DyldContext pkg) : result unit * World rp :=
  _extractImage pkg demo_cache dyldCtx demo_image (PStr "out.bin")
    (demo_mapped rp).

Definition demo_images : imagedict :=
  [("UIKit.framework/UIKit"%string, {| address := 0; pathFileOffset := 0 |});
   ("Foundation.framework/Foundation"%string,
    {| address := 2; pathFileOffset := 1 |})].

Definition demo_args (e : option string) (o : option string) (l : bool)
  : Namespace :=
  {| dyld_path := "cache"; extract := e; output := o;
     list_frameworks := l; filter_ := None; verbosity := 1 |}.

(** * Vocabulary of the further properties *)

(** [imageMap] as lines 163-169 build it from the pairs of a decoded path
    and its image, in the order of the directory. *)
Definition build_imageMap (entries d0 : imagedict) : imagedict :=
  fold_left (λ d e, dict_set e.1 e.2 d) entries d0.

(** The last image filed under [path]. *)
Definition last_image (path : string) (entries : imagedict)
  : option dyld_cache_image_info :=
  snd <$> last (List.filter (λ e, String.eqb path e.1) entries).

(** A file system that differs from another at most in the file [dest]
    and in directories that were added. *)
Definition touches_only (dest : option fspath) (fs0 fs1 : FS) : Prop :=
  (∀ p, Some p ≠ dest → files fs1 !! p = files fs0 !! p) ∧
  (∀ p, is_Some (files fs0 !! p) → is_Some (files fs1 !! p)) ∧
  dirs fs0 ⊆ dirs fs1.

Section FurtherVocabulary.
Context {rp : Reporter} (py : PyBuiltins) (pkg : Package).

(** The one file a run of [main] may create or change. *)
Definition main_destination (args : Namespace) : option fspath :=
  if list_frameworks args then None
  else match extract args with
       | Some target =>
           if truthy (extract args)
           then Some (fspath_of (destination args (strip py target)))
           else None
       | None => None
       end.

(** Lines 158-169: the cache opened, mapped and read. *)
Definition open_and_load (args : Namespace)
  : M (rp := rp) (bytes * (DyldContext pkg * imagedict)) :=
  fs0 <-- gets fs ;;
  f <-- lift (fs_open_rb (Path (dyld_path args)) fs0) ;;
  dyldFile0 <-- lift (mmap_new f ACCESS_READ) ;;
  modify (set_dyldFile (Some dyldFile0)) ;;;
  loaded <-- load_images py pkg ;;
  ret (f, loaded).


End FurtherVocabulary.

(** ** Inputs for the further properties *)



(** A world without the cache file. *)
Definition empty_world (rp : Reporter) : World rp :=
  set_fs {| dirs := ∅; files := ∅ |} (demo_world rp).

Definition listing_args (term : string) : Namespace :=
  {| dyld_path := "cache"; extract := None; output := None;
     list_frameworks := true; filter_ := Some term; verbosity := 1 |}.

Definition verbose_args (v : Z) : Namespace :=
  {| dyld_path := "cache"; extract := None; output := None;
     list_frameworks := false; filter_ := None; verbosity := v |}.

(** * Properties *)

(** ** Substrings *)

Lemma append_nil_l (s : string) : "" +:+ s = s.
Proof. reflexivity. Qed.

Lemma append_cons_l (c : ascii) (a s : string) :
  String c a +:+ s = String c (a +:+ s).
Proof. reflexivity. Qed.

Lemma prefix_nil_l (s : string) : String.prefix "" s = true.
Proof. by destruct s. Qed.

Lemma prefix_cons_nil (c : ascii) (a : string) : String.prefix (String c a) "" = false.
Proof. reflexivity. Qed.

Lemma prefix_cons_cons (c d : ascii) (a s : string) :
  String.prefix (String c a) (String d s) =
  if ascii_dec c d then String.prefix a s else false.
Proof. reflexivity. Qed.

Lemma prefix_spec (a s : string) :
  String.prefix a s = true ↔ ∃ post, s = a +:+ post.
Proof.
  revert s. induction a as [|c a IH]; intros s.
  - rewrite prefix_nil_l. split; [intros _; by exists s | done].
  - destruct s as [|d s].
    + rewrite prefix_cons_nil. split; [done | intros [post H]; discriminate].
    + rewrite prefix_cons_cons. destruct (ascii_dec c d) as [->|Hne].
      * rewrite IH. split; intros [post H]; exists post;
          rewrite append_cons_l in *; congruence.
      * split; [done | intros [post H]; rewrite append_cons_l in H; congruence].
Qed.

Lemma str_contains_nil (sub : string) :
  str_contains sub "" = String.prefix sub "".
Proof. simpl. apply orb_false_r. Qed.

Lemma str_contains_cons (sub : string) (c : ascii) (s : string) :
  str_contains sub (String c s) =
  String.prefix sub (String c s) || str_contains sub s.
Proof. reflexivity. Qed.

Lemma str_contains_spec (sub s : string) :
  str_contains sub s = true ↔ ∃ pre post, s = pre +:+ sub +:+ post.
Proof.
  induction s as [|c s IH].
  - rewrite str_contains_nil, prefix_spec. split.
    + intros [post H]. by exists EmptyString, post.
    + intros [pre [post H]]. destruct pre; [by exists post | done].
  - rewrite str_contains_cons, orb_true_iff, prefix_spec, IH. split.
    + intros [[post H]|[pre [post H]]].
      * by exists EmptyString, post.
      * exists (String c pre), post. rewrite append_cons_l. by rewrite H.
    + intros [pre [post H]]. destruct pre as [|d pre].
      * left. by exists post.
      * right. exists pre, post. rewrite append_cons_l in H. congruence.
Qed.

Lemma str_contains_empty (s : string) : str_contains "" s = true.
Proof. destruct s; reflexivity. Qed.

(** ** The file system *)

Lemma makedirs_from_files pre rest fs0 fs1 :
  makedirs_from pre rest fs0 = Ok fs1 → files fs1 = files fs0.
Proof.
  revert pre fs0. induction rest as [|c rest IH]; intros pre fs0; simpl.
  - by intros [= ->].
  - case_match; [done|]. intros Hm. by apply IH in Hm.
Qed.


Ltac split_if :=
  match goal with |- context [if ?b then _ else _] => destruct b eqn:? end.




Lemma fs_open_wb_spec p fs0 fs1 :
  fs_open_wb p fs0 = Ok fs1 →
  is_dir fs0 (parent p) = true ∧ dirs fs1 = dirs fs0 ∧
  files fs1 = <[p := []]> (files fs0).
Proof.
  unfold fs_open_wb. repeat case_match; try done. by intros [= <-].
Qed.

Lemma fs_open_wb_no_parent p fs0 :
  is_dir fs0 (parent p) = false → is_ok (fs_open_wb p fs0) = false.
Proof. unfold fs_open_wb. intros ->. by repeat case_match. Qed.

(** ** Programs of the package: what they cannot do *)

Section Frame.
Context {rp : Reporter}.
Implicit Types w : World rp.

Lemma mmap_write_readonly off payload m :
  access m = ACCESS_READ → mmap_write off payload m = Err TypeError.
Proof. unfold mmap_write. by intros ->. Qed.


(** One operation leaves the file system and the trace alone, and a
    read-only cache map as it is. *)
Lemma handle_frame {X} (op : Op X) w :
  fs (handle op w).2 = fs w ∧
  trace (handle op w).2 = trace w ∧
  (readonly (dyldFile w) → dyldFile (handle op w).2 = dyldFile w).
Proof.
  destruct op as [m|m off payload| |d|u s|msg]; simpl; try done.
  destruct (get_map m w) as [mo|] eqn:Hm; [|done].
  destruct (mmap_write off payload mo) as [mo'|e] eqn:Hw; [|done].
  destruct m; simpl in *; split_and!; try done.
  intros Hro. rewrite (mmap_write_readonly _ _ _ (Hro _ Hm)) in Hw. done.
Qed.

Lemma run_prog_frame {A} (p : Prog A) w :
  fs (run_prog p w).2 = fs w ∧
  trace (run_prog p w).2 = trace w ∧
  (readonly (dyldFile w) → dyldFile (run_prog p w).2 = dyldFile w).
Proof.
  revert w. induction p as [a|e|X op k IH]; intros w; simpl; try done.
  destruct (handle op w) as [x w1] eqn:Hh.
  destruct (handle_frame op w) as (Hfs & Htr & Hro). rewrite Hh in *. simpl in *.
  destruct (IH x w1) as (Hfs' & Htr' & Hro'). split_and!.
  - congruence.
  - congruence.
  - intros H. rewrite <- (Hro H). apply Hro'. by rewrite (Hro H).
Qed.

(** ** Weakest preconditions for [M] *)

Lemma wp_ret {A} (a : A) Q w : Q (Ok a) w → wp (ret a) Q w.
Proof. done. Qed.

Lemma wp_lift {A} (r : result A) Q w : Q r w → wp (lift r) Q w.
Proof. done. Qed.

Lemma wp_modify (f : World rp → World rp) Q w : Q (Ok tt) (f w) → wp (modify f) Q w.
Proof. done. Qed.

Lemma wp_gets {A} (f : World rp → A) Q w : Q (Ok (f w)) w → wp (gets f) Q w.
Proof. done. Qed.

Lemma wp_bind {A B} (m : M A) (k : A → M B) Q w :
  wp m (λ r w1, match r with
                | Ok a => wp (k a) Q w1
                | Err e => Q (Err e) w1
                end) w →
  wp (bind m k) Q w.
Proof. unfold wp, bind. by destruct (m w) as [[a|e] w1]. Qed.

Lemma wp_mono {A} (m : M A) (Q Q' : result A → World rp → Prop) w :
  wp m Q w → (∀ r w', Q r w' → Q' r w') → wp m Q' w.
Proof. unfold wp. auto. Qed.

Lemma wp_finally {A} (m : M A) fin Q w :
  wp m (λ r w1, Q r (fin w1)) w → wp (finally m fin) Q w.
Proof. unfold wp, finally. by destruct (m w). Qed.

Lemma wp_run_prog {A} (p : Prog A) Q w :
  (∀ r w1, fs w1 = fs w → trace w1 = trace w →
           (readonly (dyldFile w) → dyldFile w1 = dyldFile w) → Q r w1) →
  wp (run_prog p) Q w.
Proof.
  intros H. destruct (run_prog_frame p w) as (? & ? & ?). by apply H.
Qed.

End Frame.

(** ** The pipeline driver *)

Ltac wsimpl :=
  cbn [fst snd fs trace dyldFile machoFile segments statusBar logger
       emit set_fs set_statusBar set_machoFile set_segments set_dyldFile
       set_logger].

Ltac wp_step :=
  cbv beta iota;
  lazymatch goal with
  | |- wp (bind _ _) _ _ => apply wp_bind
  | |- wp (modify _) _ _ => apply wp_modify
  | |- wp (gets _) _ _ => apply wp_gets
  | |- wp (ret _) _ _ => apply wp_ret
  end.

Ltac wp_go := repeat wp_step; cbv beta iota; wsimpl.

Tactic Notation "wsimpl" "in" hyp(H) :=
  cbn [fst snd fs trace dyldFile machoFile segments statusBar logger
       emit set_fs set_statusBar set_machoFile set_segments set_dyldFile
       set_logger] in H.

Section Pipeline.
Context {rp : Reporter} (py : PyBuiltins) (pkg : Package).
Implicit Types w : World rp.

Lemma framed_refl w : framed w w.
Proof. by split_and!. Qed.

Lemma framed_trans w1 w2 w3 : framed w1 w2 → framed w2 w3 → framed w1 w3.
Proof.
  intros (F1 & T1 & D1) (F2 & T2 & D2). split_and!; [congruence..|].
  intros H. rewrite <- (D1 H). apply D2. by rewrite (D1 H).
Qed.

Lemma wp_framed_prog {A} (p : Prog A) Q w :
  (∀ r w1, framed w w1 → Q r w1) → wp (run_prog p) Q w.
Proof. intros H. apply wp_run_prog. intros. by apply H. Qed.

Lemma bind_ret_tt (m : M (rp := rp) unit) w : bind m (λ _, ret tt) w = m w.
Proof. unfold bind, ret. by destruct (m w) as [[[]|e] w1]. Qed.

Lemma run_pipeline_stages w : run_pipeline pkg w = run_stages pkg pipeline_order w.
Proof.
  unfold run_pipeline, pipeline_order. simpl. unfold bind.
  repeat (destruct (call_stage pkg _ _) as [[[]|?] ?]; [|done]).
  done.
Qed.

(** The converters run in the order of the list, each once, until one
    raises; none touches the file system. *)
Lemma wp_run_stages (l : list Stage) Q w :
  (∀ n r w', n ≤ length l → fs w' = fs w →
             (readonly (dyldFile w) → dyldFile w' = dyldFile w) →
             trace w' = trace w ++ (EvStage <$> take n l) →
             (is_ok r = true → n = length l) →
             (is_ok r = false → 0 < n) → Q r w') →
  wp (run_stages pkg l) Q w.
Proof.
  revert Q w. induction l as [|s l IH]; intros Q w HQ; simpl.
  - apply wp_ret. apply (HQ 0); simpl; try done. by rewrite app_nil_r.
  - apply wp_bind. unfold call_stage. apply wp_bind, wp_modify.
    apply wp_run_prog. intros r w1 Hfs Htr Hro. simpl in *.
    destruct r as [[]|e].
    + apply IH. intros n r w' Hn Hfs' Hro' Htr' Hok Herr.
      apply (HQ (S n)); simpl; try lia.
      * congruence.
      * intros H. rewrite <- (Hro H). apply Hro'. by rewrite (Hro H).
      * rewrite Htr', Htr. by rewrite <- app_assoc.
      * intros H. by rewrite (Hok H).
    + apply (HQ 1); simpl; try done; lia.
Qed.

Lemma wp_run_pipeline Q w :
  (∀ n r w', n ≤ 5 → fs w' = fs w →
             (readonly (dyldFile w) → dyldFile w' = dyldFile w) →
             trace w' = trace w ++ (EvStage <$> take n pipeline_order) →
             (is_ok r = true → n = 5) →
             (is_ok r = false → 0 < n) → Q r w') →
  wp (run_pipeline pkg) Q w.
Proof.
  intros HQ. unfold wp. rewrite run_pipeline_stages.
  apply wp_run_stages. exact HQ.
Qed.

Lemma wp_make_context f dyldCtx image Q w :
  (∀ r w1, framed w w1 → Q r w1) →
  wp (make_context pkg f dyldCtx image) Q w.
Proof.
  intros HQ. unfold make_context.
  apply wp_bind, wp_lift. destruct (mmap_new f ACCESS_COPY) as [m|e];
    [|apply HQ, framed_refl].
  apply wp_bind, wp_modify, wp_bind, wp_framed_prog.
  intros [off|e] w1 Hf1; [|by apply HQ].
  apply wp_bind, wp_framed_prog. intros [segs|e] w2 Hf2.
  - wp_go. apply wp_framed_prog. intros r w3 Hf3. apply HQ.
    eapply framed_trans; [exact Hf1|]. eapply framed_trans; [exact Hf2|].
    eapply framed_trans; [|exact Hf3]. by split_and!.
  - apply HQ. eapply framed_trans; [exact Hf1|exact Hf2].
Qed.

(** The driver: every way a call of [_extractImage] can end, and that
    it leaves a read-only cache map as it found it. *)
Lemma _extractImage_outcome f dyldCtx image outputPath w :
  wp (_extractImage pkg f dyldCtx image outputPath)
     (λ r w', extract_outcome outputPath w r w' ∧
              (readonly (dyldFile w) → dyldFile w' = dyldFile w)) w.
Proof.
  unfold _extractImage. apply wp_bind, wp_make_context.
  intros [[]|e] w1 (F1 & T1 & D1); [|split; [by apply Out_context|done]].
  apply wp_bind, wp_run_pipeline. intros n r w2 Hn F2 D2 T2 Hok Herr.
  assert (Hd : readonly (dyldFile w) → dyldFile w2 = dyldFile w).
  { intros H. rewrite <- (D1 H). apply D2. by rewrite (D1 H). }
  destruct r as [[]|e].
  2:{ split; [|done]. apply (Out_stage _ _ n); [split; [by apply Herr|done]|congruence|].
      by rewrite T2, T1. }
  rewrite (Hok eq_refl) in T2.
  change (take 5 pipeline_order) with pipeline_order in T2.
  assert (T3 : trace w2 ++ [EvOpen outputPath] =
               trace w ++ (EvStage <$> pipeline_order) ++ [EvOpen outputPath]).
  { rewrite T2, T1. by rewrite <- app_assoc. }
  unfold write_macho, open_wb. wp_go.
  apply wp_lift. rewrite F2, F1.
  destruct (try_open_wb outputPath (fs w)) as [fs1|e] eqn:Hop.
  2:{ split; [|done]. apply (Out_open _ _ e); [done|cbn; congruence|done]. }
  unfold statusBar_update, output_buffer. wp_go. apply wp_lift.
  destruct (segments w2 !! "__LINKEDIT"%string) as [seg|] eqn:Hseg.
  2:{ split; [|done]. apply (Out_size _ _ fs1 KeyError); [done..|].
      unfold output_buffer, bind, gets, lift. cbn. by rewrite Hseg. }
  wp_go. apply wp_lift.
  destruct (machoFile w2) as [m|] eqn:Hm.
  2:{ split; [|done]. apply (Out_size _ _ fs1 ValueError); [done..|].
      unfold output_buffer, bind, gets, lift. cbn. by rewrite Hseg, Hm. }
  unfold mmap_read.
  destruct (2 ^ 63 <=? fileoff seg + filesize seg)%N eqn:Hsz.
  { split; [|done]. apply (Out_size _ _ fs1 OverflowError); [done..|].
    unfold output_buffer, bind, gets, lift, mmap_read. cbn.
    by rewrite Hseg, Hm, Hsz. }
  unfold outFile_write. wp_go.
  split; [|done].
  apply (Out_written _ _ fs1 seg m
           (take (N.to_nat (fileoff seg + filesize seg)) (data m)));
    wsimpl; try done.
  - unfold full_run. rewrite T3. by rewrite <- !app_assoc.
  - by apply N.leb_gt.
Qed.






End Pipeline.

(** ** Selection, listing and [main] *)

Section Main.
Context {rp : Reporter} (py : PyBuiltins) (pkg : Package).
Implicit Types w : World rp.

Lemma filter_loop (g : string → bool) (l acc : list string) :
  fold_left (λ filteredPaths path,
               if g path then filteredPaths ++ [path] else filteredPaths) l acc
  = acc ++ List.filter g l.
Proof.
  revert acc. induction l as [|p l IH]; intros acc; simpl.
  - by rewrite app_nil_r.
  - rewrite IH. destruct (g p); [by rewrite <- app_assoc|done].
Qed.

(** The loop of [_filterImages] is a filter. *)
Lemma _filterImages_filter paths term :
  _filterImages py paths term =
  List.filter (λ p, str_contains (lower py term) (lower py p)) paths.
Proof. unfold _filterImages. by rewrite filter_loop. Qed.

Lemma filter_none {A} (g : A → bool) (l : list A) :
  (∀ x, x ∈ l → g x = false) → List.filter g l = [].
Proof.
  induction l as [|x l IH]; intros H; simpl; [done|].
  rewrite (H x) by apply list_elem_of_here.
  apply IH. intros y Hy. apply H. by apply list_elem_of_further.
Qed.

Lemma filter_sublist {A} (g : A → bool) (l : list A) :
  List.filter g l `sublist_of` l.
Proof.
  induction l as [|x l IH]; simpl; [done|].
  destruct (g x); [by apply sublist_skip|by apply sublist_cons].
Qed.

Lemma elem_of_filter_bool {A} (g : A → bool) (l : list A) x :
  x ∈ List.filter g l ↔ x ∈ l ∧ g x = true.
Proof. rewrite !list_elem_of_In. apply filter_In. Qed.

Lemma dict_get_keys k (d : imagedict) :
  k ∈ dict_keys d → is_Some (dict_get k d).
Proof.
  induction d as [|[k' v'] d IH]; simpl.
  - intros H. by apply elem_of_nil in H.
  - intros H. destruct (String.eqb k k') eqn:Hk; [eauto|].
    apply elem_of_cons in H as [->|H]; [|by apply IH].
    by rewrite String.eqb_refl in Hk.
Qed.

Lemma truthy_Some s : s ≠ EmptyString → truthy (Some s) = true.
Proof.
  intros H. unfold truthy. apply negb_true_iff. by apply String.eqb_neq.
Qed.

Lemma wp_enumerate_images dyldCtx imgs imageMap Q w :
  (∀ r w1, framed w w1 → Q r w1) →
  wp (enumerate_images py pkg dyldCtx imgs imageMap) Q w.
Proof.
  revert imageMap Q w. induction imgs as [|i imgs IH]; intros imageMap Q w HQ.
  - apply wp_ret, HQ, framed_refl.
  - simpl. apply wp_bind, wp_framed_prog. intros [raw|e] w1 H1; [|by apply HQ].
    apply wp_bind, wp_lift. destruct (decode_utf8 py _) as [path|e];
      [|by apply HQ].
    apply IH. intros r w2 H2. apply HQ. by eapply framed_trans.
Qed.

Lemma wp_load_images Q w :
  (∀ r w1, framed w w1 → Q r w1) → wp (load_images py pkg) Q w.
Proof.
  intros HQ. unfold load_images.
  apply wp_bind, wp_framed_prog. intros [dyldCtx|e] w1 H1; [|by apply HQ].
  apply wp_bind, wp_enumerate_images. intros [imageMap|e] w2 H2.
  - apply wp_ret, HQ. by eapply framed_trans.
  - apply HQ. by eapply framed_trans.
Qed.

Lemma wp_print_all lines Q w :
  (∀ w', fs w' = fs w → dyldFile w' = dyldFile w →
         trace w' = trace w ++ (EvPrint <$> lines) → Q (Ok tt) w') →
  wp (print_all (rp := rp) lines) Q w.
Proof.
  revert Q w. induction lines as [|l lines IH]; intros Q w HQ; simpl.
  - apply wp_ret, HQ; [done..|]. by rewrite app_nil_r.
  - unfold print. wp_go. apply IH. intros w' Hf Hd Ht. wsimpl.
    apply HQ; [done..|]. simpl in Ht. by rewrite <- app_assoc in Ht.
Qed.

Lemma wp_list_images args imageMap Q w :
  (∀ w', fs w' = fs w → dyldFile w' = dyldFile w →
         trace w' = trace w ++
           (EvPrint <$> listing_header :: listed_paths py args imageMap) →
         Q (Ok tt) w') →
  wp (list_images py args imageMap) Q w.
Proof.
  intros HQ. unfold list_images, print. wp_go. apply wp_print_all.
  intros w' Hf Hd Ht. apply HQ; [done..|].
  simpl in *. by rewrite <- app_assoc in Ht.
Qed.

(** With a first match, [extract_image] is lines 194-201 on it. *)
Lemma extract_image_first args target f dyldCtx imageMap first rest :
  _filterImages py (dict_keys imageMap) (strip py target) = first :: rest →
  extract_image (rp := rp) py pkg args target f dyldCtx imageMap =
  extract_first pkg args (strip py target) first f dyldCtx imageMap.
Proof. intros H. unfold extract_image. by rewrite H. Qed.

Lemma extract_first_outcome args t first f dyldCtx imageMap w :
  first ∈ dict_keys imageMap →
  wp (extract_first pkg args t first f dyldCtx imageMap)
     (λ r w', extract_first_post args t first w r w' ∧
              (readonly (dyldFile w) → dyldFile w' = dyldFile w)) w.
Proof.
  intros Hin. destruct (dict_get_keys _ _ Hin) as [image Himg].
  unfold extract_first, extract_first_post, choose_outputPath, print.
  rewrite Himg. destruct (output args) as [o|].
  - wp_go. apply wp_lift. cbv beta iota.
    eapply wp_mono; [apply _extractImage_outcome|]. by intros r w' [? ?].
  - unfold os_makedirs. wp_go. apply wp_lift.
    destruct (fs_makedirs _ (fs w)) as [fs1|e]; [|done].
    wp_go. apply wp_lift. cbv beta iota.
    eapply wp_mono; [apply _extractImage_outcome|]. by intros r w' [? ?].
Qed.

(** [main] up to the point where the images are known. *)
Lemma main_loaded args f cache dyldCtx imageMap w w1 :
  fs_open_rb (Path (dyld_path args)) (fs w) = Ok f →
  mmap_new f ACCESS_READ = Ok cache →
  load_images py pkg (set_dyldFile (Some cache) w) = (Ok (dyldCtx, imageMap), w1) →
  main py pkg args w =
    finally (dispatch py pkg args f dyldCtx imageMap) (set_dyldFile None) w1 ∧
  fs w1 = fs w ∧ trace w1 = trace w ∧ dyldFile w1 = Some cache ∧
  cache = {| access := ACCESS_READ; data := f |}.
Proof.
  intros Hopen Hmap Hload.
  assert (Hc : cache = {| access := ACCESS_READ; data := f |}).
  { unfold mmap_new in Hmap. destruct f; [done|]. by injection Hmap as <-. }
  split.
  - unfold main, main_body, bind, gets, lift, modify, finally.
    by rewrite Hopen, Hmap, Hload.
  - assert (Hwp : wp (load_images py pkg)
                     (λ _ w', framed (set_dyldFile (Some cache) w) w')
                     (set_dyldFile (Some cache) w))
      by (by apply wp_load_images).
    unfold wp in Hwp. rewrite Hload in Hwp. destruct Hwp as (F & T & D).
    simpl in F, T, D. split_and!; [done..| |done].
    rewrite D; [done|]. intros m [= <-]. by rewrite Hc.
Qed.

Lemma dispatch_extract args target f dyldCtx imageMap first rest :
  list_frameworks args = false → extract args = Some target →
  target ≠ EmptyString →
  _filterImages py (dict_keys imageMap) (strip py target) = first :: rest →
  dispatch (rp := rp) py pkg args f dyldCtx imageMap =
  extract_first pkg args (strip py target) first f dyldCtx imageMap.
Proof.
  intros Hl He Hne Hm. unfold dispatch.
  rewrite Hl, He. rewrite <- He at 1. rewrite He, (truthy_Some _ Hne).
  by eapply extract_image_first.
Qed.

Lemma dispatch_not_found args target f dyldCtx imageMap :
  list_frameworks args = false → extract args = Some target →
  target ≠ EmptyString →
  _filterImages py (dict_keys imageMap) (strip py target) = [] →
  dispatch (rp := rp) py pkg args f dyldCtx imageMap =
  print (not_found_message (strip py target)).
Proof.
  intros Hl He Hne Hm. unfold dispatch.
  rewrite Hl, He. rewrite <- He at 1. rewrite He, (truthy_Some _ Hne).
  unfold extract_image. by rewrite Hm.
Qed.

Lemma first_match_in_keys imageMap term first rest :
  _filterImages py (dict_keys imageMap) term = first :: rest →
  first ∈ dict_keys imageMap.
Proof.
  rewrite _filterImages_filter. intros H.
  assert (Hin : first ∈ first :: rest) by apply list_elem_of_here.
  rewrite <- H in Hin. by apply elem_of_filter_bool in Hin as [? _].
Qed.

(** A whole run of [main] that reaches lines 194-201. *)
Lemma main_extract args target f cache dyldCtx imageMap first rest w w1 :
  list_frameworks args = false → extract args = Some target →
  target ≠ EmptyString →
  fs_open_rb (Path (dyld_path args)) (fs w) = Ok f →
  mmap_new f ACCESS_READ = Ok cache →
  load_images py pkg (set_dyldFile (Some cache) w) = (Ok (dyldCtx, imageMap), w1) →
  _filterImages py (dict_keys imageMap) (strip py target) = first :: rest →
  ∃ w2, extract_first_post args (strip py target) first w1
          (main py pkg args w).1 w2 ∧
        (main py pkg args w).2 = set_dyldFile None w2 ∧
        fs w1 = fs w ∧ trace w1 = trace w.
Proof.
  intros Hl He Hne Hopen Hmap Hload Hm.
  destruct (main_loaded _ _ _ _ _ _ _ Hopen Hmap Hload) as (-> & F & T & _).
  rewrite (dispatch_extract _ _ _ _ _ _ _ Hl He Hne Hm).
  pose proof (extract_first_outcome args (strip py target) first f dyldCtx
                imageMap w1 (first_match_in_keys _ _ _ _ Hm)) as [Hpost _].
  unfold finally.
  destruct (extract_first _ _ _ _ _ _ _ w1) as [r w2]. simpl in *.
  by exists w2.
Qed.

(** ** What the outcomes of [_extractImage] say about the file system *)

Lemma try_open_wb_dirs pl fs0 fs1 :
  try_open_wb pl fs0 = Ok fs1 →
  dirs fs1 = dirs fs0 ∧ is_dir fs0 (parent (fspath_of pl)) = true ∧
  files fs1 = <[fspath_of pl := []]> (files fs0).
Proof.
  unfold try_open_wb. intros H.
  assert (H' : fs_open_wb (fspath_of pl) fs0 = Ok fs1).
  { destruct pl as [[|c o]|q]; done. }
  apply fs_open_wb_spec in H'. tauto.
Qed.




Lemma outcome_ok outputPath w w' :
  extract_outcome outputPath w (Ok tt) w' →
  ∃ fs1 payload,
    try_open_wb outputPath (fs w) = Ok fs1 ∧
    fs w' = fs_write (fspath_of outputPath) payload fs1 ∧
    trace w' = trace w ++ full_run outputPath payload.
Proof. intros H. inversion H; subst. eexists _, _. by split_and!. Qed.


End Main.

(** ** The status bar cannot be observed *)

Section Simulation.
Context {rp1 rp2 : Reporter} (py : PyBuiltins) (pkg : Package).



















End Simulation.

(** ** The working copy and the cache map through a whole run *)

Section Copies.
Context {rp : Reporter} (py : PyBuiltins) (pkg : Package).
Implicit Types w : World rp.






Lemma list_images_run args imageMap w :
  (list_images py args imageMap w).1 = Ok tt ∧
  fs (list_images py args imageMap w).2 = fs w ∧
  trace (list_images py args imageMap w).2 =
    trace w ++ (EvPrint <$> listing_header :: listed_paths py args imageMap).
Proof. apply (wp_list_images py). by intros w' ? ? ?. Qed.

(** In listing mode [main] prints and does nothing else. *)
Lemma main_listing args w :
  list_frameworks args = true →
  wp (main py pkg args)
     (λ _ w', fs w' = fs w ∧ ∃ lines, trace w' = trace w ++ (EvPrint <$> lines))
     w.
Proof.
  intros Hl.
  assert (Hnil : trace w = trace w ++ (EvPrint <$> [])) by (by rewrite app_nil_r).
  unfold main. wp_go. apply wp_lift.
  destruct (fs_open_rb _ (fs w)) as [f|e]; [|by split; [|exists []]].
  wp_go. apply wp_lift.
  destruct (mmap_new f ACCESS_READ) as [cache|e]; [|by split; [|exists []]].
  wp_go. apply wp_finally. unfold main_body.
  apply wp_bind, wp_load_images.
  intros [[dyldCtx imageMap]|e] w1 (F & T & _); simpl in F, T.
  - unfold dispatch. rewrite Hl. apply wp_list_images.
    intros w' F' _ T'. wsimpl. split; [congruence|].
    eexists. by rewrite T', T.
  - wsimpl. split; [done|]. exists []. by rewrite T.
Qed.

End Copies.

(** * The claims *)

Section Claims.
Context {rp : Reporter} (py : PyBuiltins) (pkg : Package).
Implicit Types w : World rp.



(** C3.  When extraction is asked for and the target (stripped, as line
    188 does) occurs, case-insensitively, in none of the cache's image
    paths, [main] prints the not-found message with the target in it and
    returns; the file system is as it was. *)
Theorem not_found_prints_and_writes_nothing
    args target f cache dyldCtx imageMap w w1 :
  list_frameworks args = false → extract args = Some target →
  target ≠ EmptyString →
  fs_open_rb (Path (dyld_path args)) (fs w) = Ok f →
  mmap_new f ACCESS_READ = Ok cache →
  load_images py pkg (set_dyldFile (Some cache) w) = (Ok (dyldCtx, imageMap), w1) →
  (∀ path, path ∈ dict_keys imageMap →
     str_contains (lower py (strip py target)) (lower py path) = false) →
  (main py pkg args w).1 = Ok tt ∧
  trace (main py pkg args w).2 =
    trace w ++ [EvPrint (not_found_message (strip py target))] ∧
  fs (main py pkg args w).2 = fs w.
Proof.
  intros Hl He Hne Hopen Hmap Hload Hnone.
  destruct (main_loaded py pkg _ _ _ _ _ _ _ Hopen Hmap Hload) as (-> & F & T & _).
  rewrite (dispatch_not_found py pkg args target) by
    (try done; rewrite _filterImages_filter; by apply filter_none).
  unfold finally, print, modify. simpl. by rewrite T, F.
Qed.

(** C4.  [_filterImages] returns, in their order, exactly the paths whose
    lowered form contains the lowered term; extraction takes the first of
    them; listing prints them all; and of the two paths of the example
    only the UIKit one contains ["kit"]. *)
Theorem filter_selects_matching_paths :
  (∀ paths term,
     _filterImages py paths term =
     List.filter (λ p, str_contains (lower py term) (lower py p)) paths) ∧
  (∀ paths term p,
     p ∈ _filterImages py paths term ↔
     p ∈ paths ∧ ∃ pre post, lower py p = pre +:+ lower py term +:+ post) ∧
  (∀ paths term, _filterImages py paths term `sublist_of` paths) ∧
  (∀ args target f dyldCtx imageMap first rest,
     _filterImages py (dict_keys imageMap) (strip py target) = first :: rest →
     extract_image (rp := rp) py pkg args target f dyldCtx imageMap =
     extract_first pkg args (strip py target) first f dyldCtx imageMap) ∧
  (∀ args imageMap w,
     (list_images py args imageMap w).1 = Ok tt ∧
     trace (list_images py args imageMap w).2 =
       trace w ++ (EvPrint <$> listing_header :: listed_paths py args imageMap)) ∧
  (∀ args imageMap term,
     filter_ args = Some term → term ≠ EmptyString →
     listed_paths py args imageMap =
     _filterImages py (dict_keys imageMap) (lower py (strip py term))) ∧
  (∀ args imageMap,
     truthy (filter_ args) = false →
     listed_paths py args imageMap = dict_keys imageMap) ∧
  _filterImages ascii_py
    ["UIKit.framework/UIKit"; "Foundation.framework/Foundation"]%string "kit"
  = ["UIKit.framework/UIKit"%string].
Proof.
  split_and!.
  - apply _filterImages_filter.
  - intros paths term p. rewrite _filterImages_filter, elem_of_filter_bool.
    by rewrite str_contains_spec.
  - intros paths term. rewrite _filterImages_filter. apply filter_sublist.
  - intros. by eapply extract_image_first.
  - intros args imageMap w.
    by destruct (list_images_run py args imageMap w) as (? & _ & ?).
  - intros args imageMap term Hf Hne. unfold listed_paths.
    by rewrite Hf, (truthy_Some _ Hne).
  - intros args imageMap Hf. unfold listed_paths.
    destruct (filter_ args); [by rewrite Hf|done].
  - reflexivity.
Qed.



(** C7.  A run of [main] that extracts and returns has opened and
    written one file: the one named by [--output], as given, when it is
    supplied, and [binaries/<name>] otherwise, [<name>] being the
    requested name as line 188 strips it. *)
Theorem destination_is_output_or_default
    args target f cache dyldCtx imageMap first rest w w1 :
  list_frameworks args = false → extract args = Some target →
  target ≠ EmptyString →
  fs_open_rb (Path (dyld_path args)) (fs w) = Ok f →
  mmap_new f ACCESS_READ = Ok cache →
  load_images py pkg (set_dyldFile (Some cache) w) = (Ok (dyldCtx, imageMap), w1) →
  _filterImages py (dict_keys imageMap) (strip py target) = first :: rest →
  (main py pkg args w).1 = Ok tt →
  ∃ dest payload,
    (∀ o, output args = Some o → dest = PStr o) ∧
    (output args = None →
     dest = PPath (Path ("binaries/" +:+ strip py target))) ∧
    trace (main py pkg args w).2 =
      trace w ++
      match output args with
      | Some _ => []
      | None => [EvMakedirs (parent (Path ("binaries/" +:+ strip py target)))]
      end ++
      [EvPrint (extracting_message first)] ++ full_run dest payload ∧
    files (fs (main py pkg args w).2) !! fspath_of dest = Some payload.
Proof.
  intros Hl He Hne Hopen Hmap Hload Hm Hok.
  destruct (main_extract py pkg _ _ _ _ _ _ _ _ _ _ Hl He Hne Hopen Hmap Hload Hm)
    as (w2 & Hpost & -> & F & T).
  rewrite Hok in Hpost. unfold extract_first_post in Hpost.
  destruct (output args) as [o|] eqn:Ho.
  - apply outcome_ok in Hpost as (fs1 & payload & Hop & F2 & T2).
    exists (PStr o), payload. split_and!; [by intros ? [= ->]|done| |].
    + wsimpl. simpl in T2. rewrite T2, T. by rewrite <- app_assoc.
    + wsimpl. rewrite F2. simpl. apply lookup_insert_eq.
  - fold (default_path (strip py target)).
    destruct (fs_makedirs _ (fs w1)) as [fs1|e]; [|by destruct Hpost].
    apply outcome_ok in Hpost as (fs2 & payload & Hop & F2 & T2).
    exists (PPath (default_path (strip py target))), payload.
    split_and!; [done|done| |].
    + wsimpl. simpl in T2. rewrite T2, T. by rewrite <- !app_assoc.
    + wsimpl. rewrite F2. simpl. apply lookup_insert_eq.
Qed.

(** C9.  With [--list-frameworks], whatever else is given, [main] only
    prints: the file system is as it was and nothing but prints is added
    to the trace (no converter, no directory, no file); once the images
    are loaded it prints the heading and the listed paths and returns. *)
Theorem listing_takes_precedence args w :
  list_frameworks args = true →
  fs (main py pkg args w).2 = fs w ∧
  (∃ lines, trace (main py pkg args w).2 = trace w ++ (EvPrint <$> lines)) ∧
  (∀ f cache dyldCtx imageMap w1,
     fs_open_rb (Path (dyld_path args)) (fs w) = Ok f →
     mmap_new f ACCESS_READ = Ok cache →
     load_images py pkg (set_dyldFile (Some cache) w) =
       (Ok (dyldCtx, imageMap), w1) →
     (main py pkg args w).1 = Ok tt ∧
     trace (main py pkg args w).2 =
       trace w ++ (EvPrint <$> listing_header :: listed_paths py args imageMap)).
Proof.
  intros Hl. destruct (main_listing py pkg args w Hl) as [F T].
  split_and!; [done..|].
  intros f cache dyldCtx imageMap w1 Hopen Hmap Hload.
  destruct (main_loaded py pkg _ _ _ _ _ _ _ Hopen Hmap Hload) as (-> & _ & T1 & _).
  unfold finally, dispatch. rewrite Hl.
  destruct (list_images_run py args imageMap w1) as (Hr & _ & Ht).
  destruct (list_images py args imageMap w1) as [r w2]. simpl in *.
  by rewrite Ht, T1.
Qed.


End Claims.


(** * The claims on the small cache *)




(** C3 at work: no image path contains ["appkit"]. *)
Lemma not_found_example :
  (main ascii_py demo_pkg (demo_args (Some "AppKit") None false)
     (demo_world silent)).1 = Ok tt ∧
  trace (main ascii_py demo_pkg (demo_args (Some "AppKit") None false)
           (demo_world silent)).2 =
    trace (demo_world silent) ++
    [EvPrint (not_found_message (strip ascii_py "AppKit"))] ∧
  fs (main ascii_py demo_pkg (demo_args (Some "AppKit") None false)
        (demo_world silent)).2 = fs (demo_world silent).
Proof.
  apply (not_found_prints_and_writes_nothing ascii_py demo_pkg
           (demo_args (Some "AppKit") None false) "AppKit" demo_cache
           {| access := ACCESS_READ; data := demo_cache |} tt demo_images
           (demo_world silent) (demo_mapped silent)).
  - reflexivity.
  - reflexivity.
  - done.
  - vm_compute. reflexivity.
  - reflexivity.
  - vm_compute. reflexivity.
  - intros path Hin.
    apply elem_of_cons in Hin as [->|Hin]; [vm_compute; reflexivity|].
    apply elem_of_cons in Hin as [->|Hin]; [vm_compute; reflexivity|].
    by apply elem_of_nil in Hin.
Defined.


(** C6 at work on an image without [__LINKEDIT]: the file has been opened
    when the look-up raises, and is left empty. *)
Example missing_linkedit_leaves_empty_file :
  (demo_extract silent bare_pkg tt).1 = Err KeyError ∧
  files (fs (demo_extract silent bare_pkg tt).2) !! fspath_of (PStr "out.bin") =
    Some [].
Proof. vm_compute. by split. Qed.

(** C7 at work: [--output out.bin]. *)
Lemma destination_example :
  ∃ payload,
    files (fs (main ascii_py demo_pkg
                 (demo_args (Some "uikit") (Some "out.bin") false)
                 (demo_world silent)).2) !! fspath_of (PStr "out.bin")
    = Some payload.
Proof.
  destruct (destination_is_output_or_default ascii_py demo_pkg
              (demo_args (Some "uikit") (Some "out.bin") false) "uikit"
              demo_cache {| access := ACCESS_READ; data := demo_cache |} tt
              demo_images "UIKit.framework/UIKit" []
              (demo_world silent) (demo_mapped silent))
    as (dest & payload & Hsome & _ & _ & Hfile).
  - reflexivity.
  - reflexivity.
  - done.
  - vm_compute. reflexivity.
  - reflexivity.
  - vm_compute. reflexivity.
  - vm_compute. reflexivity.
  - vm_compute. reflexivity.
  - exists payload. rewrite (Hsome "out.bin" eq_refl) in Hfile. exact Hfile.
Defined.


(** C9 at work: [--list-frameworks --extract kit]. *)
Lemma listing_example :
  (main ascii_py demo_pkg (demo_args (Some "kit") None true)
     (demo_world silent)).1 = Ok tt ∧
  trace (main ascii_py demo_pkg (demo_args (Some "kit") None true)
           (demo_world silent)).2 =
    trace (demo_world silent) ++
    (EvPrint <$> listing_header ::
       listed_paths ascii_py (demo_args (Some "kit") None true) demo_images).
Proof.
  refine (proj2 (proj2 (listing_takes_precedence ascii_py demo_pkg
                          (demo_args (Some "kit") None true)
                          (demo_world silent) _))
            demo_cache {| access := ACCESS_READ; data := demo_cache |} tt
            demo_images (demo_mapped silent) _ _ _).
  - reflexivity.
  - vm_compute. reflexivity.
  - reflexivity.
  - vm_compute. reflexivity.
Defined.


(** * Further properties *)

(** ** The map of paths to images *)

Lemma dict_keys_cons k v (d : imagedict) :
  dict_keys ((k, v) :: d) = k :: dict_keys d.
Proof. reflexivity. Qed.

Lemma dict_keys_set k v (d : imagedict) :
  dict_keys (dict_set k v d) =
  if bool_decide (k ∈ dict_keys d) then dict_keys d else dict_keys d ++ [k].
Proof.
  induction d as [|[k' v'] d IH]; [done|].
  cbn [dict_set]. destruct (String.eqb k k') eqn:Hk.
  - apply String.eqb_eq in Hk as ->. rewrite !dict_keys_cons.
    by rewrite bool_decide_eq_true_2 by apply list_elem_of_here.
  - apply String.eqb_neq in Hk. rewrite !dict_keys_cons, IH.
    destruct (bool_decide (k ∈ dict_keys d)) eqn:Hin.
    + apply bool_decide_eq_true in Hin.
      rewrite bool_decide_eq_true_2; [done|]. by apply list_elem_of_further.
    + apply bool_decide_eq_false in Hin.
      rewrite bool_decide_eq_false_2; [done|].
      intros [?|?]%elem_of_cons; done.
Qed.

Lemma dict_get_set_eq k v (d : imagedict) : dict_get k (dict_set k v d) = Some v.
Proof.
  induction d as [|[k' v'] d IH]; simpl.
  - by rewrite String.eqb_refl.
  - destruct (String.eqb k k') eqn:Hk; simpl.
    + by rewrite String.eqb_refl.
    + by rewrite Hk.
Qed.

Lemma dict_get_set_ne k k' v (d : imagedict) :
  k ≠ k' → dict_get k' (dict_set k v d) = dict_get k' d.
Proof.
  intros Hne. induction d as [|[k0 v0] d IH]; simpl.
  - apply not_eq_sym, String.eqb_neq in Hne. by rewrite Hne.
  - destruct (String.eqb k k0) eqn:Hk; simpl.
    + apply String.eqb_eq in Hk as <-.
      apply not_eq_sym, String.eqb_neq in Hne. by rewrite Hne.
    + by rewrite IH.
Qed.

Lemma dict_keys_set_NoDup k v (d : imagedict) :
  NoDup (dict_keys d) → NoDup (dict_keys (dict_set k v d)).
Proof.
  intros Hnd. rewrite dict_keys_set. case_bool_decide as Hin; [done|].
  apply NoDup_app. split_and!; [done| |apply NoDup_singleton].
  intros x Hx ->%list_elem_of_singleton. done.
Qed.

Lemma dict_get_Some_keys k v (d : imagedict) :
  dict_get k d = Some v → k ∈ dict_keys d ∧ (k, v) ∈ d.
Proof.
  induction d as [|[k' v'] d IH]; simpl; [done|].
  destruct (String.eqb k k') eqn:Hk.
  - apply String.eqb_eq in Hk as ->. intros [= ->].
    split; apply list_elem_of_here.
  - intros H. destruct (IH H). split; by apply list_elem_of_further.
Qed.

Lemma build_imageMap_snoc entries e d0 :
  build_imageMap (entries ++ [e]) d0 =
  dict_set e.1 e.2 (build_imageMap entries d0).
Proof. unfold build_imageMap. by rewrite fold_left_app. Qed.

Lemma last_image_snoc path entries e :
  last_image path (entries ++ [e]) =
  if String.eqb path e.1 then Some e.2 else last_image path entries.
Proof.
  unfold last_image. rewrite List.filter_app. simpl.
  destruct (String.eqb path e.1); [by rewrite last_snoc|by rewrite app_nil_r].
Qed.

(** Looking a path up in the built map gives the last image filed under
    it. *)
Lemma dict_get_build path entries d0 :
  dict_get path (build_imageMap entries d0) =
  match last_image path entries with
  | Some image => Some image
  | None => dict_get path d0
  end.
Proof.
  induction entries as [|e entries IH] using rev_ind; [done|].
  rewrite build_imageMap_snoc, last_image_snoc.
  destruct (String.eqb path e.1) eqn:Hk.
  - apply String.eqb_eq in Hk as ->. apply dict_get_set_eq.
  - apply String.eqb_neq in Hk. rewrite dict_get_set_ne by done. apply IH.
Qed.

Lemma build_imageMap_keys entries d0 :
  NoDup (dict_keys d0) →
  NoDup (dict_keys (build_imageMap entries d0)) ∧
  (∀ path, path ∈ dict_keys (build_imageMap entries d0) ↔
           path ∈ dict_keys d0 ∨ path ∈ entries.*1) ∧
  length (build_imageMap entries d0) ≤ length d0 + length entries.
Proof.
  intros Hnd. induction entries as [|e entries (IH1 & IH2 & IH3)] using rev_ind.
  - simpl. split_and!; [done| |lia]. intros path. split; [by left|].
    intros [?|H]; [done|]. by apply elem_of_nil in H.
  - rewrite build_imageMap_snoc. split_and!.
    + by apply dict_keys_set_NoDup.
    + intros path. rewrite dict_keys_set, fmap_app, elem_of_app.
      case_bool_decide as Hin.
      * rewrite IH2. simpl. rewrite list_elem_of_singleton.
        split; [tauto|]. intros [?|[?| ->]]; [tauto..|]. by apply IH2.
      * rewrite elem_of_app, IH2. simpl. rewrite list_elem_of_singleton. tauto.
    + assert (Hl : length (dict_keys (dict_set e.1 e.2 (build_imageMap entries d0)))
                   ≤ S (length (build_imageMap entries d0))).
      { rewrite dict_keys_set. case_bool_decide.
        - unfold dict_keys. rewrite length_fmap. lia.
        - rewrite length_app. unfold dict_keys. rewrite length_fmap. simpl. lia. }
      unfold dict_keys in Hl. rewrite length_fmap in Hl.
      rewrite length_app. simpl. lia.
Qed.

Lemma last_image_elem path entries image :
  last_image path entries = Some image → (path, image) ∈ entries.
Proof.
  unfold last_image. intros H.
  destruct (last (List.filter _ entries)) as [[k v]|] eqn:Hl; [|done].
  simpl in H. injection H as ->.
  assert (Hin : (k, image) ∈ List.filter (λ e, String.eqb path e.1) entries).
  { apply last_Some in Hl as [l' ->]. apply elem_of_app. right.
    apply list_elem_of_here. }
  apply list_elem_of_In, filter_In in Hin as [Hin Hk].
  simpl in Hk. apply String.eqb_eq in Hk as ->. by apply list_elem_of_In.
Qed.

Lemma dict_set_not_nil k v (d : imagedict) : dict_set k v d ≠ [].
Proof. destruct d as [|[k' v'] d]; simpl; [done|]. by destruct (String.eqb k k'). Qed.

Section ImageMap.
Context {rp : Reporter} (py : PyBuiltins) (pkg : Package).
Implicit Types w : World rp.

(** The loop of lines 164-169 files the images one by one under the
    paths it reads. *)
Lemma enumerate_images_build dyldCtx imgs d0 w :
  wp (enumerate_images py pkg dyldCtx imgs d0)
     (λ r _, ∀ d, r = Ok d →
        ∃ paths, length paths = length imgs ∧
                 d = build_imageMap (zip paths imgs) d0) w.
Proof.
  revert d0 w. induction imgs as [|i imgs IH]; intros d0 w.
  - apply wp_ret. intros d [= <-]. by exists [].
  - simpl. apply wp_bind. unfold wp at 1.
    destruct (run_prog _ w) as [[raw|e] w1]; [|done]. simpl.
    apply wp_bind, wp_lift.
    destruct (decode_utf8 py (removelast raw)) as [path|e]; [|done].
    eapply wp_mono; [apply IH|]. intros r w2 H d Hr.
    destruct (H d Hr) as (paths & Hlen & ->).
    exists (path :: paths). split; [simpl; lia|done].
Qed.

Lemma load_images_build dyldCtx imageMap w w1 :
  load_images py pkg w = (Ok (dyldCtx, imageMap), w1) →
  ∃ paths, length paths = length (images pkg dyldCtx) ∧
           imageMap = build_imageMap (zip paths (images pkg dyldCtx)) [].
Proof.
  unfold load_images, bind.
  destruct (run_prog (DyldContext_init pkg) w) as [[ctx|e] w0]; [|done].
  pose proof (enumerate_images_build ctx (images pkg ctx) [] w0) as He.
  unfold wp in He.
  destruct (enumerate_images py pkg ctx (images pkg ctx) [] w0)
    as [[d|e] w2]; [|done].
  unfold ret. intros [= -> -> ->]. by apply He.
Qed.

Lemma load_images_NoDup dyldCtx imageMap w w1 :
  load_images py pkg w = (Ok (dyldCtx, imageMap), w1) →
  NoDup (dict_keys imageMap).
Proof.
  intros (paths & _ & ->)%load_images_build.
  apply build_imageMap_keys, NoDup_nil_2.
Qed.

(** X1.  The map [main] builds has each path once, has no more entries
    than the cache has images, holds only images of the cache, and is
    empty exactly when the cache has no image. *)
Theorem imageMap_is_a_map_of_the_images dyldCtx imageMap w w1 :
  load_images py pkg w = (Ok (dyldCtx, imageMap), w1) →
  NoDup (dict_keys imageMap) ∧
  length imageMap ≤ length (images pkg dyldCtx) ∧
  (∀ path image, dict_get path imageMap = Some image →
     path ∈ dict_keys imageMap ∧ image ∈ images pkg dyldCtx) ∧
  (∀ path, path ∈ dict_keys imageMap → is_Some (dict_get path imageMap)) ∧
  (imageMap = [] ↔ images pkg dyldCtx = []).
Proof.
  intros (paths & Hlen & ->)%load_images_build.
  destruct (build_imageMap_keys (zip paths (images pkg dyldCtx)) [])
    as (Hnd & Hkeys & Hsize); [apply NoDup_nil_2|].
  split_and!.
  - done.
  - rewrite length_zip in Hsize. simpl in Hsize. lia.
  - intros path image Hget. split; [by eapply dict_get_Some_keys|].
    rewrite dict_get_build in Hget.
    destruct (last_image path _) as [v|] eqn:Hl; [|done].
    injection Hget as ->. apply last_image_elem in Hl.
    by apply elem_of_zip_r in Hl.
  - intros path. apply dict_get_keys.
  - split.
    + intros Hnil. destruct (images pkg dyldCtx) as [|i imgs] eqn:Hi; [done|].
      destruct paths as [|p paths]; [done|]. exfalso.
      assert (Hz : zip (p :: paths) (i :: imgs) ≠ []) by done.
      destruct (zip (p :: paths) (i :: imgs)) as [|e l] using rev_ind; [done|].
      rewrite build_imageMap_snoc in Hnil. by apply dict_set_not_nil in Hnil.
    + intros Hi. rewrite Hi. by destruct paths.
Qed.






(** X3.  [--list-frameworks] prints the heading and then paths of the
    cache, each at most once, in the order of the map. *)
Theorem listing_prints_each_path_once args f cache dyldCtx imageMap w w1 :
  list_frameworks args = true →
  fs_open_rb (Path (dyld_path args)) (fs w) = Ok f →
  mmap_new f ACCESS_READ = Ok cache →
  load_images py pkg (set_dyldFile (Some cache) w) = (Ok (dyldCtx, imageMap), w1) →
  ∃ lines,
    trace (main py pkg args w).2 =
      trace w ++ EvPrint listing_header :: (EvPrint <$> lines) ∧
    NoDup lines ∧
    lines `sublist_of` dict_keys imageMap.
Proof.
  intros Hl Hopen Hmap Hload.
  destruct (main_loaded py pkg _ _ _ _ _ _ _ Hopen Hmap Hload) as (-> & _ & T1 & _).
  exists (listed_paths py args imageMap). split_and!.
  - unfold finally, dispatch. rewrite Hl.
    destruct (list_images_run py args imageMap w1) as (_ & _ & Ht).
    destruct (list_images py args imageMap w1) as [r w2]. simpl in *.
    by rewrite Ht, T1.
  - pose proof (load_images_NoDup _ _ _ _ Hload) as Hnd.
    unfold listed_paths. destruct (filter_ args); [|done].
    destruct (truthy _); [|done].
    rewrite _filterImages_filter.
    eapply sublist_NoDup; [done|apply filter_sublist].
  - unfold listed_paths. destruct (filter_ args); [|done].
    destruct (truthy _); [|done].
    rewrite _filterImages_filter. apply filter_sublist.
Qed.

End ImageMap.

(** ** What [main] leaves of the file system *)

Lemma touches_only_refl dest fs0 : touches_only dest fs0 fs0.
Proof. by split_and!. Qed.

Lemma touches_only_trans dest fs0 fs1 fs2 :
  touches_only dest fs0 fs1 → touches_only dest fs1 fs2 →
  touches_only dest fs0 fs2.
Proof.
  intros (A1 & B1 & C1) (A2 & B2 & C2). split_and!.
  - intros p Hp. by rewrite A2, A1.
  - intros p Hp. by apply B2, B1.
  - by etrans.
Qed.

Lemma touches_only_eq dest fs0 fs1 : fs1 = fs0 → touches_only dest fs0 fs1.
Proof. intros ->. apply touches_only_refl. Qed.

Lemma makedirs_from_dirs pre rest fs0 fs1 :
  makedirs_from pre rest fs0 = Ok fs1 → dirs fs0 ⊆ dirs fs1.
Proof.
  revert pre fs0. induction rest as [|c rest IH]; intros pre fs0; simpl.
  - by intros [= ->].
  - case_match; [done|]. intros Hm. apply IH in Hm. simpl in Hm.
    etrans; [|exact Hm]. split_if; [done|]. apply union_subseteq_r.
Qed.

Lemma fs_makedirs_touches dest p fs0 fs1 :
  fs_makedirs p fs0 = Ok fs1 → touches_only dest fs0 fs1.
Proof.
  intros Hm. split_and!.
  - intros q _. by rewrite (makedirs_from_files _ _ _ _ Hm).
  - intros q. by rewrite (makedirs_from_files _ _ _ _ Hm).
  - by eapply makedirs_from_dirs.
Qed.

Lemma try_open_wb_touches pl fs0 fs1 :
  try_open_wb pl fs0 = Ok fs1 → touches_only (Some (fspath_of pl)) fs0 fs1.
Proof.
  intros (Hd & _ & Hf)%try_open_wb_dirs. split_and!.
  - intros p Hp. rewrite Hf. apply lookup_insert_ne. congruence.
  - intros p Hp. rewrite Hf.
    destruct (decide (fspath_of pl = p)) as [->|Hne].
    + rewrite lookup_insert_eq. eauto.
    + by rewrite lookup_insert_ne.
  - by rewrite Hd.
Qed.

Lemma fs_write_touches p payload fs0 :
  touches_only (Some p) fs0 (fs_write p payload fs0).
Proof.
  split_and!; simpl; [| |done].
  - intros q Hq. apply lookup_insert_ne. congruence.
  - intros q Hq. destruct (decide (p = q)) as [->|Hne].
    + rewrite lookup_insert_eq. eauto.
    + by rewrite lookup_insert_ne.
Qed.

Section Effects.
Context {rp : Reporter} (py : PyBuiltins) (pkg : Package).
Implicit Types w : World rp.

Lemma outcome_touches outputPath w r w' :
  extract_outcome outputPath w r w' →
  touches_only (Some (fspath_of outputPath)) (fs w) (fs w').
Proof.
  intros [e w1 F _|n e w1 _ F _|e w1 _ F _|fs1 e w1 Ho F _ _
         |fs1 seg m payload w1 Ho F _ _ _ _ _].
  - by apply touches_only_eq.
  - by apply touches_only_eq.
  - by apply touches_only_eq.
  - rewrite F. by apply try_open_wb_touches.
  - rewrite F. eapply touches_only_trans; [by apply try_open_wb_touches|].
    apply fs_write_touches.
Qed.

Lemma extract_first_touches args t first w r w' :
  extract_first_post args t first w r w' →
  touches_only (Some (fspath_of (destination args t))) (fs w) (fs w').
Proof.
  unfold extract_first_post, destination. destruct (output args) as [o|].
  - intros H. by apply outcome_touches in H.
  - destruct (fs_makedirs _ (fs w)) as [fs1|e] eqn:Hmk.
    + intros H. apply outcome_touches in H. simpl in H.
      eapply touches_only_trans; [by eapply fs_makedirs_touches|done].
    + intros (_ & F & _). by apply touches_only_eq.
Qed.

Lemma dispatch_touches args f dyldCtx imageMap w :
  wp (dispatch py pkg args f dyldCtx imageMap)
     (λ _ w', touches_only (main_destination py args) (fs w) (fs w')) w.
Proof.
  unfold dispatch, main_destination. destruct (list_frameworks args).
  { apply wp_list_images. intros w' F _ _. by apply touches_only_eq. }
  destruct (extract args) as [target|]; [|apply touches_only_refl].
  destruct (truthy (Some target)); [|apply touches_only_refl].
  unfold extract_image.
  destruct (_filterImages py (dict_keys imageMap) (strip py target))
    as [|first rest] eqn:Hm; [apply touches_only_refl|].
  eapply wp_mono.
  { apply extract_first_outcome. by eapply first_match_in_keys. }
  intros r w' [Hpost _]. by apply extract_first_touches in Hpost.
Qed.

(** X4.  Whatever the arguments and whatever happens, a run of [main]
    changes no file but the destination of the extraction, removes no
    file and no directory; without an extraction there is no such
    destination and every file is as it was. *)
Theorem main_touches_only_the_destination args w :
  (∀ p, files (fs (main py pkg args w).2) !! p ≠ files (fs w) !! p →
        main_destination py args = Some p) ∧
  (∀ p, is_Some (files (fs w) !! p) →
        is_Some (files (fs (main py pkg args w).2) !! p)) ∧
  dirs (fs w) ⊆ dirs (fs (main py pkg args w).2).
Proof.
  assert (H : wp (main py pkg args)
                 (λ _ w', touches_only (main_destination py args) (fs w) (fs w'))
                 w).
  { unfold main. wp_go. apply wp_lift.
    destruct (fs_open_rb _ (fs w)) as [f|e]; [|apply touches_only_refl].
    wp_go. apply wp_lift.
    destruct (mmap_new f ACCESS_READ) as [cache|e]; [|apply touches_only_refl].
    wp_go. apply wp_finally. unfold main_body.
    apply wp_bind, wp_load_images.
    intros [[dyldCtx imageMap]|e] w1 (F & _ & _); simpl in F;
      [|wsimpl; by apply touches_only_eq].
    eapply wp_mono; [apply dispatch_touches|].
    intros r w' Ht. wsimpl. by rewrite F in Ht. }
  destruct H as (A & B & C). split_and!; [|done..].
  intros p Hp.
  destruct (decide (Some p = main_destination py args)) as [<-|Hne]; [done|].
  by apply A in Hne.
Qed.

(** X5.  Without [--list-frameworks] and without a non-empty [--extract],
    [main] prints nothing and leaves the file system alone; once the
    cache is loaded it returns normally. *)
Theorem main_without_a_mode_does_nothing args w :
  list_frameworks args = false → truthy (extract args) = false →
  fs (main py pkg args w).2 = fs w ∧
  trace (main py pkg args w).2 = trace w ∧
  (∀ f cache dyldCtx imageMap w1,
     fs_open_rb (Path (dyld_path args)) (fs w) = Ok f →
     mmap_new f ACCESS_READ = Ok cache →
     load_images py pkg (set_dyldFile (Some cache) w) =
       (Ok (dyldCtx, imageMap), w1) →
     (main py pkg args w).1 = Ok tt).
Proof.
  intros Hl He.
  assert (Hd : ∀ f dyldCtx imageMap,
            dispatch (rp := rp) py pkg args f dyldCtx imageMap = ret tt).
  { intros. unfold dispatch. rewrite Hl.
    destruct (extract args); [by rewrite He|done]. }
  assert (H : wp (main py pkg args)
                 (λ _ w', fs w' = fs w ∧ trace w' = trace w) w).
  { unfold main. wp_go. apply wp_lift.
    destruct (fs_open_rb _ (fs w)) as [f|e]; [|done].
    wp_go. apply wp_lift.
    destruct (mmap_new f ACCESS_READ) as [cache|e]; [|done].
    wp_go. apply wp_finally. unfold main_body.
    apply wp_bind, wp_load_images.
    intros [[dyldCtx imageMap]|e] w1 (F & T & _); simpl in F, T; [|done].
    by rewrite Hd. }
  destruct H as [F T]. split_and!; [done..|].
  intros f cache dyldCtx imageMap w1 Hopen Hmap Hload.
  destruct (main_loaded py pkg _ _ _ _ _ _ _ Hopen Hmap Hload) as (-> & _).
  by rewrite Hd.
Qed.

(** X6.  When the cache cannot be opened, mapped or read, [main] raises
    that very exception, having printed nothing and touched no file. *)
Theorem main_reports_a_failed_load args w e w1 :
  open_and_load py pkg args w = (Err e, w1) →
  (main py pkg args w).1 = Err e ∧
  trace (main py pkg args w).2 = trace w ∧
  fs (main py pkg args w).2 = fs w.
Proof.
  unfold open_and_load, main, main_body, bind, gets, lift, modify, finally, ret.
  destruct (fs_open_rb _ (fs w)) as [f|e1]; [|by intros [= -> _]].
  destruct (mmap_new f ACCESS_READ) as [cache|e1]; [|by intros [= -> _]].
  pose proof (wp_load_images py pkg
                (λ _ w', framed (set_dyldFile (Some cache) w) w')
                (set_dyldFile (Some cache) w) (λ _ _ H, H)) as (F & T & _).
  destruct (load_images py pkg (set_dyldFile (Some cache) w))
    as [[loaded|e1] w2]; [done|].
  intros [= -> _]. by simpl in *.
Qed.

End Effects.

(** ** The end of [_extractImage] *)

Section Emission.
Context {rp : Reporter} (py : PyBuiltins) (pkg : Package).
Implicit Types w : World rp.

Lemma _extractImage_after_conversion f dyldCtx image outputPath w wc :
  (make_context pkg f dyldCtx image ;;; run_pipeline pkg) w = (Ok tt, wc) →
  _extractImage pkg f dyldCtx image outputPath w =
  (write_macho outputPath ;;; statusBar_update "Extractor" "Done") wc.
Proof.
  unfold _extractImage, bind.
  destruct (make_context pkg f dyldCtx image w) as [[[]|e1] w2]; [|done].
  destruct (run_pipeline pkg w2) as [[[]|e2] w3]; [|done].
  by intros [= ->].
Qed.

Lemma conversion_frame f dyldCtx image w wc :
  (make_context pkg f dyldCtx image ;;; run_pipeline pkg) w = (Ok tt, wc) →
  fs wc = fs w ∧ trace wc = trace w ++ (EvStage <$> pipeline_order).
Proof.
  intros H.
  assert (Hwp : wp (make_context pkg f dyldCtx image ;;; run_pipeline pkg)
                   (λ r w', is_ok r = true →
                      fs w' = fs w ∧
                      trace w' = trace w ++ (EvStage <$> pipeline_order)) w).
  { apply wp_bind, wp_make_context. intros [[]|e1] w2 (F & T & _); [|done].
    apply wp_run_pipeline. intros n r w3 _ F3 _ T3 Hok _ Hr.
    rewrite (Hok Hr) in T3. split; [congruence|]. by rewrite T3, T. }
  unfold wp in Hwp. rewrite H in Hwp. by apply Hwp.
Qed.

(** X7.  When the converters return and leave no [__LINKEDIT] segment,
    [_extractImage] raises [KeyError]; by then the output file has been
    opened, so it exists and is empty. *)
Theorem missing_linkedit_raises_KeyError f dyldCtx image outputPath w wc fs1 :
  (make_context pkg f dyldCtx image ;;; run_pipeline pkg) w = (Ok tt, wc) →
  segments wc !! "__LINKEDIT"%string = None →
  try_open_wb outputPath (fs w) = Ok fs1 →
  (_extractImage pkg f dyldCtx image outputPath w).1 = Err KeyError ∧
  trace (_extractImage pkg f dyldCtx image outputPath w).2 =
    trace w ++ (EvStage <$> pipeline_order) ++ [EvOpen outputPath] ∧
  fs (_extractImage pkg f dyldCtx image outputPath w).2 = fs1 ∧
  files fs1 !! fspath_of outputPath = Some [].
Proof.
  intros Hconv Hseg Hopen.
  rewrite (_extractImage_after_conversion _ _ _ _ _ _ Hconv).
  destruct (conversion_frame _ _ _ _ _ Hconv) as [F T].
  unfold write_macho, open_wb, statusBar_update, output_buffer,
    bind, modify, gets, lift. simpl.
  rewrite F, Hopen. simpl. rewrite Hseg. simpl.
  split_and!; [done| |done|].
  - rewrite T. by rewrite <- app_assoc.
  - apply try_open_wb_dirs in Hopen as (_ & _ & ->). apply lookup_insert_eq.
Qed.




End Emission.

(** ** More on selection *)

Lemma filter_all {A} (g : A → bool) (l : list A) :
  (∀ x, x ∈ l → g x = true) → List.filter g l = l.
Proof.
  induction l as [|x l IH]; intros H; simpl; [done|].
  rewrite (H x) by apply list_elem_of_here. f_equal.
  apply IH. intros y Hy. apply H. by apply list_elem_of_further.
Qed.

Lemma filter_filter_same {A} (g : A → bool) (l : list A) :
  List.filter g (List.filter g l) = List.filter g l.
Proof.
  apply filter_all. intros x Hx. by apply elem_of_filter_bool in Hx as [_ ?].
Qed.

Lemma ascii_lower_char_idem c :
  ascii_lower_char (ascii_lower_char c) = ascii_lower_char c.
Proof. by destruct c as [[] [] [] [] [] [] [] []]. Qed.

Lemma ascii_lower_idem s : ascii_lower (ascii_lower s) = ascii_lower s.
Proof.
  induction s as [|c s IH]; [done|]. simpl. by rewrite ascii_lower_char_idem, IH.
Qed.

Section Selection.
Context {rp : Reporter} (py : PyBuiltins) (pkg : Package).
Implicit Types w : World rp.

(** X10.  [_filterImages] works path by path: the result on two lists
    joined is the two results joined; filtering a result again with the
    same term changes nothing; and a result is never longer than the
    input. *)
Theorem filtering_is_pathwise paths1 paths2 term :
  _filterImages py (paths1 ++ paths2) term =
    _filterImages py paths1 term ++ _filterImages py paths2 term ∧
  _filterImages py (_filterImages py paths1 term) term =
    _filterImages py paths1 term ∧
  length (_filterImages py paths1 term) ≤ length paths1.
Proof.
  rewrite !_filterImages_filter. split_and!.
  - apply List.filter_app.
  - apply filter_filter_same.
  - apply sublist_length, filter_sublist.
Qed.

(** X11.  When lowering twice is lowering once, [--list-frameworks
    --filter T] lists exactly the paths among which [--extract T]
    chooses, and the first line listed is the image extracted; when
    nothing is listed, extraction reports that the image was not
    found. *)
Theorem listing_shows_what_extraction_picks
    args_l args_e term f dyldCtx imageMap :
  (∀ s, lower py (lower py s) = lower py s) →
  term ≠ EmptyString →
  filter_ args_l = Some term →
  list_frameworks args_e = false → extract args_e = Some term →
  listed_paths py args_l imageMap =
    _filterImages py (dict_keys imageMap) (strip py term) ∧
  match listed_paths py args_l imageMap with
  | [] =>
      dispatch (rp := rp) py pkg args_e f dyldCtx imageMap =
      print (not_found_message (strip py term))
  | first :: _ =>
      dispatch (rp := rp) py pkg args_e f dyldCtx imageMap =
      extract_first pkg args_e (strip py term) first f dyldCtx imageMap
  end.
Proof.
  intros Hidem Hne Hf Hl He.
  assert (Heq : listed_paths py args_l imageMap =
                _filterImages py (dict_keys imageMap) (strip py term)).
  { unfold listed_paths. rewrite Hf, (truthy_Some _ Hne).
    by rewrite !_filterImages_filter, Hidem. }
  split; [done|]. rewrite Heq.
  destruct (_filterImages py (dict_keys imageMap) (strip py term))
    as [|first rest] eqn:Hm.
  - by apply dispatch_not_found.
  - by eapply dispatch_extract.
Qed.

(** X12.  A name made of blanks only is not empty, so extraction goes
    ahead; stripped, it is the empty string, which every path contains:
    the first image of the cache is the one extracted, and the default
    destination is the file [binaries] itself. *)
Theorem blank_name_selects_the_first_image
    args target f dyldCtx first image rest :
  lower py EmptyString = EmptyString →
  strip py target = EmptyString → target ≠ EmptyString →
  list_frameworks args = false → extract args = Some target →
  dispatch (rp := rp) py pkg args f dyldCtx ((first, image) :: rest) =
    extract_first pkg args EmptyString first f dyldCtx ((first, image) :: rest) ∧
  (output args = None →
   destination args (strip py target) = PPath ["binaries"%string]).
Proof.
  intros Hlow Hstrip Hne Hl He. split.
  - rewrite <- Hstrip. eapply (dispatch_extract py pkg); [done..|].
    rewrite Hstrip, _filterImages_filter, Hlow.
    rewrite filter_all; [done|]. intros x _. apply str_contains_empty.
  - intros Ho. unfold destination. by rewrite Ho, Hstrip.
Qed.

End Selection.

(** ** The log level *)

(** X13.  Among the verbosities argparse admits (0 to 3), a higher one
    never raises the level below which records are dropped; verbosity 0
    sets it above every standard level (CRITICAL is 50), the default 1
    at WARNING (30). *)
Theorem more_verbosity_never_hides_records (a b : Namespace) :
  (0 ≤ verbosity a)%Z → (verbosity a ≤ verbosity b)%Z → (verbosity b ≤ 3)%Z →
  (logging_level b ≤ logging_level a)%Z ∧
  (verbosity a = 0%Z → (50 < logging_level a)%Z) ∧
  (verbosity a = 1%Z → logging_level a = 30%Z).
Proof.
  intros Ha Hab Hb. unfold logging_level.
  repeat match goal with
         | |- context [(?x =? ?y)%Z] => destruct (Z.eqb_spec x y)
         end; lia.
Qed.

(** ** The status bar and [main] *)

Section SimulationMain.
Context {rp1 rp2 : Reporter} (py : PyBuiltins) (pkg : Package).









End SimulationMain.


(** ** The destination *)

Section Destination.
Context {rp : Reporter} (py : PyBuiltins) (pkg : Package).
Implicit Types w : World rp.

(** X15.  The output path is looked at only after the converters have
    run: when it cannot be opened, all five have been called, the
    exception of [open] is what [_extractImage] raises, and the file
    system is as it was. *)
Theorem output_path_is_checked_after_conversion
    f dyldCtx image outputPath w wc e :
  (make_context pkg f dyldCtx image ;;; run_pipeline pkg) w = (Ok tt, wc) →
  try_open_wb outputPath (fs w) = Err e →
  (_extractImage pkg f dyldCtx image outputPath w).1 = Err e ∧
  trace (_extractImage pkg f dyldCtx image outputPath w).2 =
    trace w ++ (EvStage <$> pipeline_order) ++ [EvOpen outputPath] ∧
  fs (_extractImage pkg f dyldCtx image outputPath w).2 = fs w.
Proof.
  intros Hconv Hopen.
  rewrite (_extractImage_after_conversion pkg _ _ _ _ _ _ Hconv).
  destruct (conversion_frame pkg _ _ _ _ _ Hconv) as [F T].
  unfold write_macho, open_wb, bind, modify, gets, lift. wsimpl.
  rewrite F, Hopen. wsimpl. split_and!; [done| |done].
  rewrite T. by rewrite <- app_assoc.
Qed.

End Destination.




(** * The further properties on the small cache *)

(** X1 at work. *)
Lemma imageMap_example :
  NoDup (dict_keys demo_images) ∧
  length demo_images ≤ length (images demo_pkg tt).
Proof.
  destruct (imageMap_is_a_map_of_the_images ascii_py demo_pkg tt demo_images
              (demo_mapped silent) (demo_mapped silent))
    as (H1 & H2 & _).
  - vm_compute. reflexivity.
  - by split.
Defined.


(** X3 at work. *)
Lemma listing_once_example :
  ∃ lines,
    trace (main ascii_py demo_pkg (listing_args "kit") (demo_world silent)).2 =
      trace (demo_world silent) ++
      EvPrint listing_header :: (EvPrint <$> lines) ∧
    NoDup lines ∧
    lines `sublist_of` dict_keys demo_images.
Proof.
  apply (listing_prints_each_path_once ascii_py demo_pkg (listing_args "kit")
           demo_cache {| access := ACCESS_READ; data := demo_cache |} tt
           demo_images (demo_world silent) (demo_mapped silent)).
  - reflexivity.
  - vm_compute. reflexivity.
  - reflexivity.
  - vm_compute. reflexivity.
Defined.

(** X5 at work: [--extract] with an empty name. *)
Lemma no_mode_example :
  fs (main ascii_py demo_pkg (demo_args (Some "") None false)
        (demo_world silent)).2 = fs (demo_world silent) ∧
  trace (main ascii_py demo_pkg (demo_args (Some "") None false)
           (demo_world silent)).2 = trace (demo_world silent).
Proof.
  destruct (main_without_a_mode_does_nothing ascii_py demo_pkg
              (demo_args (Some "") None false) (demo_world silent))
    as (H1 & H2 & _).
  - reflexivity.
  - reflexivity.
  - by split.
Defined.

(** X6 at work: the cache file is not there. *)
Lemma failed_load_example :
  (main ascii_py demo_pkg (demo_args (Some "uikit") None false)
     (empty_world silent)).1 = Err FileNotFoundError ∧
  trace (main ascii_py demo_pkg (demo_args (Some "uikit") None false)
           (empty_world silent)).2 = trace (empty_world silent) ∧
  fs (main ascii_py demo_pkg (demo_args (Some "uikit") None false)
        (empty_world silent)).2 = fs (empty_world silent).
Proof.
  apply (main_reports_a_failed_load ascii_py demo_pkg
           (demo_args (Some "uikit") None false) (empty_world silent)
           FileNotFoundError (empty_world silent)).
  vm_compute. reflexivity.
Defined.

(** X7 at work: the image without [__LINKEDIT]. *)
Lemma missing_linkedit_example :
  (demo_extract silent bare_pkg tt).1 = Err KeyError ∧
  files (fs (demo_extract silent bare_pkg tt).2) !! fspath_of (PStr "out.bin")
    = Some [].
Proof.
  edestruct (missing_linkedit_raises_KeyError bare_pkg demo_cache tt demo_image
               (PStr "out.bin") (demo_mapped silent))
    as (H1 & _ & H3 & H4).
  - vm_compute. reflexivity.
  - vm_compute. reflexivity.
  - vm_compute. reflexivity.
  - split; [exact H1|]. unfold demo_extract. rewrite H3. exact H4.
Defined.



(** X11 at work: [--filter KIT] and [--extract KIT]. *)
Lemma listing_and_extraction_example :
  listed_paths ascii_py (listing_args "KIT") demo_images =
  _filterImages ascii_py (dict_keys demo_images) (strip ascii_py "KIT").
Proof.
  refine (proj1 (listing_shows_what_extraction_picks (rp := silent) ascii_py
                   demo_pkg (listing_args "KIT")
                   (demo_args (Some "KIT") None false) "KIT" demo_cache tt
                   demo_images _ _ _ _ _)).
  - apply ascii_lower_idem.
  - done.
  - reflexivity.
  - reflexivity.
  - reflexivity.
Defined.

(** X12 at work: [--extract "  "]. *)
Lemma blank_name_example :
  dispatch (rp := silent) ascii_py demo_pkg (demo_args (Some "  ") None false)
    demo_cache tt demo_images =
  extract_first demo_pkg (demo_args (Some "  ") None false) EmptyString
    "UIKit.framework/UIKit" demo_cache tt demo_images.
Proof.
  refine (proj1 (blank_name_selects_the_first_image (rp := silent) ascii_py
                   demo_pkg (demo_args (Some "  ") None false) "  " demo_cache
                   tt "UIKit.framework/UIKit"
                   {| address := 0; pathFileOffset := 0 |}
                   [("Foundation.framework/Foundation"%string,
                     {| address := 2; pathFileOffset := 1 |})] _ _ _ _ _)).
  - reflexivity.
  - reflexivity.
  - done.
  - reflexivity.
  - reflexivity.
Defined.

(** X13 at work: the default and [-v 3]. *)
Lemma verbosity_example :
  (logging_level (verbose_args 3) ≤ logging_level (verbose_args 1))%Z.
Proof.
  refine (proj1 (more_verbosity_never_hides_records (verbose_args 1)
                   (verbose_args 3) _ _ _)).
  - done.
  - done.
  - done.
Defined.


(** X15 at work: [nodir] does not exist. *)
Lemma late_check_example :
  (_extractImage demo_pkg demo_cache tt demo_image (PStr "nodir/out.bin")
     (demo_mapped silent)).1 = Err FileNotFoundError.
Proof.
  edestruct (output_path_is_checked_after_conversion demo_pkg demo_cache tt
               demo_image (PStr "nodir/out.bin") (demo_mapped silent))
    as (H1 & _).
  - vm_compute. reflexivity.
  - vm_compute. reflexivity.
  - exact H1.
Defined.

